(** * helm-reference-gen: the values.yaml reference generator

    A shallow embedding of [hack/helm-reference-gen/main.go]: the tree
    builder ([Parse], [ParseNode], [ParseChildren]) and the renderer
    ([Gen], [GenChildren] and the methods of [YAMLNode] the template
    calls), with the properties of the reference documentation checked
    against them.

    Go strings are byte strings; they are modelled by [string], whose
    characters are the bytes.  Every pattern and separator of the program
    is ASCII, so working on bytes or on UTF-8 runes gives the same
    results. *)

From Stdlib Require Import String Ascii List ZArith Lia Bool.
Import ListNotations.

Open Scope string_scope.

Set Warnings "-register-all".

(** ** Results of Go calls

    A call returns a value, returns a non-nil [error], or panics. *)

Inductive outcome (A : Type) : Type :=
| Ok (a : A)
| Err (e : string)
| Panic (p : string).

Arguments Ok {A} a.
Arguments Err {A} e.
Arguments Panic {A} p.

Definition bind {A B : Type} (m : outcome A) (f : A -> outcome B) : outcome B :=
  match m with
  | Ok a => f a
  | Err e => Err e
  | Panic p => Panic p
  end.

Notation "x <- m ;; k" := (bind m (fun x => k))
  (at level 61, m at next level, right associativity).

Definition aborted {A : Type} (m : outcome A) : Prop :=
  exists p, m = Panic p.

(** ** The string functions of package [strings] the program uses *)

Definition newline : ascii := "010"%char.
Definition nl : string := String newline "".

(** [strings.HasPrefix]. *)
Definition HasPrefix (s pre : string) : bool := String.prefix pre s.

Fixpoint dropBytes (n : nat) (s : string) : string :=
  match n, s with
  | S k, String _ s' => dropBytes k s'
  | _, _ => s
  end.

(** [strings.TrimPrefix]. *)
Definition TrimPrefix (s pre : string) : string :=
  if HasPrefix s pre then dropBytes (String.length pre) s else s.

(** [strings.TrimSuffix]: [s] without the trailing [suffix], when it ends
    with it. *)
Fixpoint TrimSuffix (s suffix : string) : string :=
  match s with
  | "" => ""
  | String c s' =>
      if String.eqb s suffix then "" else String c (TrimSuffix s' suffix)
  end.

(** [strings.Split(s, "\n")]: the program splits on newlines only.  The
    result is never empty; the empty string gives one empty segment. *)
Fixpoint SplitLines (s : string) : list string :=
  match s with
  | "" => [""]
  | String c s' =>
      if Ascii.eqb c newline then "" :: SplitLines s'
      else match SplitLines s' with
           | l :: ls => String c l :: ls
           | [] => [String c ""]
           end
  end.

(** [strings.Join]. *)
Definition Join (l : list string) (sep : string) : string := String.concat sep l.

(** [strings.Repeat(" ", n)]; a negative count panics. *)
Fixpoint spaces (n : nat) : string :=
  match n with
  | O => ""
  | S k => String " " (spaces k)
  end.

Definition Repeat_space (n : Z) : outcome string :=
  if (n <? 0)%Z then Panic "strings: negative Repeat count"
  else Ok (spaces (Z.to_nat n)).

(** [strings.TrimLeft(s, "!")]. *)
Fixpoint TrimLeft_bang (s : string) : string :=
  match s with
  | String c s' => if Ascii.eqb c "!"%char then TrimLeft_bang s' else s
  | "" => ""
  end.

(** [strings.TrimSpace] removes leading and trailing white space as
    [unicode.IsSpace] defines it.  The ASCII ones are the six bytes below;
    the others are U+0085 and U+00A0, which UTF-8 writes in two bytes
    starting with 0xC2, and the [White_Space] code points above U+00FF. *)
Definition isSpaceByte (c : ascii) : bool :=
  let n := nat_of_ascii c in
  ((9 <=? n) && (n <=? 13) || (n =? 32))%nat.

Definition byte (n : nat) : ascii := ascii_of_nat n.

(** Length in bytes of the white-space rune [s] starts with, if any. *)
Definition spaceRuneAt (s : string) : option nat :=
  match s with
  | String c r =>
      if isSpaceByte c then Some 1%nat
      else match nat_of_ascii c, r with
           | 194, String d _ =>
               let m := nat_of_ascii d in
               if ((m =? 133) || (m =? 160))%nat then Some 2%nat else None
           | 225, String d (String e _) =>
               if ((nat_of_ascii d =? 154) && (nat_of_ascii e =? 128))%nat
               then Some 3%nat else None
           | 226, String d (String e _) =>
               let m := nat_of_ascii d in
               let k := nat_of_ascii e in
               if ((m =? 128) && ((128 <=? k) && (k <=? 138) || (k =? 168)
                                  || (k =? 169) || (k =? 175))
                   || (m =? 129) && (k =? 159))%nat
               then Some 3%nat else None
           | 227, String d (String e _) =>
               if ((nat_of_ascii d =? 128) && (nat_of_ascii e =? 128))%nat
               then Some 3%nat else None
           | _, _ => None
           end
  | "" => None
  end.

(** [strings.TrimLeftFunc(s, unicode.IsSpace)]; [fuel] bounds the number of
    runes removed and is the length of [s] at the call. *)
Fixpoint trimLeftSpace (fuel : nat) (s : string) : string :=
  match fuel with
  | O => s
  | S f =>
      match spaceRuneAt s with
      | Some n => trimLeftSpace f (dropBytes n s)
      | None => s
      end
  end.

(** The right end: the text is kept up to its last rune that is not white
    space. *)
Fixpoint allSpace (fuel : nat) (s : string) : bool :=
  match fuel with
  | O => true
  | S f =>
      match s with
      | "" => true
      | _ => match spaceRuneAt s with
             | Some n => allSpace f (dropBytes n s)
             | None => false
             end
      end
  end.

Fixpoint trimRightSpace (s : string) : string :=
  match s with
  | "" => ""
  | String c s' =>
      if allSpace (String.length s) s then "" else String c (trimRightSpace s')
  end.

Definition TrimSpace (s : string) : string :=
  trimRightSpace (trimLeftSpace (String.length s) s).

(** ** Package [regexp]

    The three patterns of the program are sequences of literals, greedy
    repetitions of one character class, one optional class, one capturing
    group around such a repetition, and the end-of-line assertion.  Go
    matches with leftmost-first semantics: the match starts at the first
    position where one exists and, from there, is the one a backtracking
    matcher finds first. *)

Module regexp.

Inductive inst : Type :=
| Lit (s : string)               (* the text itself *)
| Star (cc : ascii -> bool)      (* x*, greedy *)
| Quest (cc : ascii -> bool)     (* x?, greedy *)
| CapStar (cc : ascii -> bool)   (* a capturing group around x*, greedy *)
| EndLine.                       (* $ under the flag m *)

Definition Regexp : Type := list inst.

(** [.]: any character but the newline (flag s is not set). *)
Definition dot (c : ascii) : bool := negb (Ascii.eqb c newline).

(** [[^\S\n]]: white space ([\t\n\f\r ]) other than the newline. *)
Definition blank (c : ascii) : bool :=
  let n := nat_of_ascii c in
  ((n =? 9) || (n =? 12) || (n =? 13) || (n =? 32))%nat.

Definition stripLit (l s : string) : option string :=
  if String.prefix l s then Some (dropBytes (String.length l) s) else None.

(** Greedy repetition: take the longest run of [cc] first and give back
    one character at a time until the continuation [k] succeeds.  [k]
    receives the text taken and the text left. *)
Fixpoint greedy {R : Type} (cc : ascii -> bool)
         (k : string -> string -> option R) (s : string) : option R :=
  match s with
  | String c s' =>
      if cc c then
        match greedy cc (fun taken rest => k (String c taken) rest) s' with
        | Some r => Some r
        | None => k "" s
        end
      else k "" s
  | "" => k "" s
  end.

(** A match of [r] at the start of [s]: the captured groups and the text
    that follows the match. *)
Fixpoint run (r : Regexp) (s : string) : option (list string * string) :=
  match r with
  | [] => Some ([], s)
  | Lit l :: r' =>
      match stripLit l s with
      | Some s' => run r' s'
      | None => None
      end
  | Star cc :: r' => greedy cc (fun _ rest => run r' rest) s
  | Quest cc :: r' =>
      match s with
      | String c s' =>
          if cc c then
            match run r' s' with
            | Some m => Some m
            | None => run r' s
            end
          else run r' s
      | "" => run r' s
      end
  | CapStar cc :: r' =>
      greedy cc (fun taken rest =>
                   match run r' rest with
                   | Some (groups, after) => Some (taken :: groups, after)
                   | None => None
                   end) s
  | EndLine :: r' =>
      match s with
      | "" => run r' s
      | String c _ => if Ascii.eqb c newline then run r' s else None
      end
  end.

(** The leftmost match. *)
Fixpoint search (r : Regexp) (s : string) : option (list string * string) :=
  match run r s with
  | Some m => Some m
  | None =>
      match s with
      | "" => None
      | String _ s' => search r s'
      end
  end.

(** [FindStringSubmatch]: [None] is the nil slice; otherwise the groups
    [match[1:]] ([match[0]], the whole match, is not used by the
    program). *)
Definition FindStringSubmatch (r : Regexp) (s : string) : option (list string) :=
  match search r s with
  | Some (groups, _) => Some groups
  | None => None
  end.

(** [ReplaceAllString(s, "")]: every match, found left to right without
    overlap, is deleted.  [skip] counts the characters of the current
    match still to delete. *)
Fixpoint deleteAll (r : Regexp) (skip : nat) (s : string) : string :=
  match s with
  | "" => ""
  | String c s' =>
      match skip with
      | S k => deleteAll r k s'
      | O =>
          match run r s with
          | Some (_, after) =>
              match (String.length s - String.length after)%nat with
              | S k => deleteAll r k s'
              | O => String c (deleteAll r 0 s')
              end
          | None => String c (deleteAll r 0 s')
          end
      end
  end.

Definition ReplaceAllString_empty (r : Regexp) (s : string) : string :=
  deleteAll r 0 s.

End regexp.

(** The pattern of the source, under flag m: [.*], the text [type: ], a
    group around [.*], and [$]. *)
Definition typeFromDescription : regexp.Regexp :=
  [regexp.Star regexp.dot; regexp.Lit "type: "; regexp.CapStar regexp.dot;
   regexp.EndLine].

(** The same pattern with the text [default: ]. *)
Definition defaultFromDescription : regexp.Regexp :=
  [regexp.Star regexp.dot; regexp.Lit "default: "; regexp.CapStar regexp.dot;
   regexp.EndLine].

(** The pattern of the source: any number of blanks other than the newline,
    the marker [#], and at most one such blank. *)
Definition commentPrefix : regexp.Regexp :=
  [regexp.Star regexp.blank; regexp.Lit "#"; regexp.Quest regexp.blank].

(** ** The documentation tree

    [Indent] is a Go [int] holding a column of the document; columns stay
    far from the bounds of [int], so it is a [Z] without wrap-around. *)

Inductive YAMLNode : Type := mkYAMLNode {
  Indent : Z;
  ParentAnchor : string;
  ParentWasMap : bool;
  Key : string;
  Default : string;
  Description : string;
  KindTag : string;
  Children : list YAMLNode
}.

(** The zero value of the struct. *)
Definition zeroYAMLNode : YAMLNode :=
  mkYAMLNode 0 "" false "" "" "" "" [].

(** [match[1]] of a non-empty submatch slice of a pattern with one group. *)
Definition group1 (groups : list string) : string := hd "" groups.

(** The [switch] of [Kind] on the tag without its leading [!]. *)
Definition kindOfTag (kindTag : string) : string :=
  let t := TrimLeft_bang kindTag in
  if String.eqb t "str" then "string"
  else if String.eqb t "int" then "integer"
  else if String.eqb t "bool" then "boolean"
  else if String.eqb t "map" then "map"
  else "unknown kind '" ++ kindTag ++ "'".

Definition Kind (y : YAMLNode) : string :=
  match regexp.FindStringSubmatch typeFromDescription (Description y) with
  | Some groups => group1 groups
  | None => kindOfTag (KindTag y)
  end.

(** The two-character text made of two double quotes: the Go literal for
    the empty string. *)
Definition emptyStringLiteral : string :=
  String "034"%char (String "034"%char "").

(** [FormattedDefault] below its first [if], for the kind [kind]. *)
Definition defaultOfValue (kind default : string) : string :=
  if String.eqb kind "array<map>" then ""
  else if negb (String.eqb default "") then
    if (2 <? List.length (SplitLines default))%nat then ""
    else TrimSpace default
  else emptyStringLiteral.

Definition FormattedDefault (y : YAMLNode) : string :=
  match regexp.FindStringSubmatch defaultFromDescription (Description y) with
  | Some groups => group1 groups
  | None => defaultOfValue (Kind y) (Default y)
  end.

(** A line the description drops: after the comment prefix is removed it
    starts with [type:] or [default:]. *)
Definition isOverrideLine (line : string) : bool :=
  HasPrefix line "type:" || HasPrefix line "default:".

(** The amount subsequent lines of the description are indented by. *)
Definition descIndent (y : YAMLNode) : Z :=
  if ParentWasMap y then Indent y else (Indent y + 1)%Z.

(** One iteration of the loop of [FormattedDescription]: [acc] is
    [withWhitespaceIndent] before the iteration, the result is its value
    after it. *)
Definition descStep (y : YAMLNode) (acc : string) (i : nat) (line : string)
  : outcome string :=
  if isOverrideLine line then Ok acc
  else if (i =? 0)%nat then Ok (line ++ nl)
  else if negb (String.eqb line "") then
    pad <- Repeat_space (descIndent y) ;;
    Ok (acc ++ pad ++ line ++ nl)
  else Ok (acc ++ nl).

Fixpoint descLoop (y : YAMLNode) (acc : string) (i : nat) (lines : list string)
  : outcome string :=
  match lines with
  | [] => Ok acc
  | line :: rest =>
      acc' <- descStep y acc i line ;;
      descLoop y acc' (S i) rest
  end.

Definition FormattedDescription (y : YAMLNode) : outcome string :=
  let withoutCommentPrefix :=
    regexp.ReplaceAllString_empty commentPrefix (Description y) in
  withWhitespaceIndent <- descLoop y "" 0 (SplitLines withoutCommentPrefix) ;;
  Ok (TrimSuffix withWhitespaceIndent nl).

Definition LeadingIndent (y : YAMLNode) : outcome string :=
  Repeat_space (if ParentWasMap y then Indent y - 3 else Indent y - 1)%Z.

(** ** The YAML node graph of gopkg.in/yaml.v3

    Only the fields the program reads are kept. *)

Module yaml.

(** The zero value is the kind of a [Node] that was never filled. *)
Inductive Kind : Type :=
| ZeroKind | DocumentNode | SequenceNode | MappingNode | ScalarNode | AliasNode.

Inductive Node : Type :=
| mkNode (kind : Kind) (tag value headComment : string) (column : Z)
         (content : list Node).

Definition KindOf (n : Node) : Kind := let (k, _, _, _, _, _) := n in k.
Definition Tag (n : Node) : string := let (_, t, _, _, _, _) := n in t.
Definition Value (n : Node) : string := let (_, _, v, _, _, _) := n in v.
Definition HeadComment (n : Node) : string := let (_, _, _, h, _, _) := n in h.
Definition Column (n : Node) : Z := let (_, _, _, _, c, _) := n in c.
Definition Content (n : Node) : list Node := let (_, _, _, _, _, c) := n in c.

Definition isScalar (n : Node) : bool :=
  match KindOf n with ScalarNode => true | _ => false end.

End yaml.

(** A method the template calls may panic; text/template recovers the
    panic and [Execute] returns it as an error. *)
Definition safeCall {A : Type} (m : outcome A) : outcome A :=
  match m with
  | Panic p => Err p
  | _ => m
  end.

Definition indexOutOfRange : string := "runtime error: index out of range".

Section Generator.

(** The library calls whose result depends on tables or code outside the
    program: [strings.ToLower], [yaml.Marshal] of the [Intermediary]
    struct holding the given nodes, and [yaml.Unmarshal] into a [Node]. *)
Variable ToLower : string -> string.
Variable Marshal : list yaml.Node -> outcome string.
Variable Unmarshal : string -> outcome yaml.Node.

Definition Anchor (y : YAMLNode) : string :=
  ParentAnchor y ++ "-" ++ ToLower (Key y).

(** The kind and default group of the template: nothing for a [map]. *)
Definition kindGroup (y : YAMLNode) : string :=
  if negb (String.eqb (Kind y) "map") then
    " (`" ++ Kind y
      ++ (if negb (String.eqb (FormattedDefault y) "")
          then ": " ++ FormattedDefault y else "")
      ++ "`)"
  else "".

(** [tm.Execute(&nodeOut, child)] for the template [tmpl]. *)
Definition Execute (y : YAMLNode) : outcome string :=
  leading <- safeCall (LeadingIndent y) ;;
  description <- safeCall (FormattedDescription y) ;;
  Ok (leading ++ "- `" ++ Key y ++ "` ((#v" ++ Anchor y ++ "))"
        ++ kindGroup y
        ++ (if negb (String.eqb description "")
            then " - " ++ description else "")).

Fixpoint allScalars (content : list yaml.Node) : bool :=
  match content with
  | [] => true
  | n :: rest =>
      if negb (yaml.isScalar n) || (0 <? List.length (yaml.Content n))%nat
      then false
      else allScalars rest
  end.

Definition toYaml (content : list yaml.Node) : outcome string :=
  match Marshal content with
  | Ok out => Ok (TrimPrefix out "arr: ")
  | Err e => Panic e
  | Panic p => Panic p
  end.

(** The [switch next.Kind] of [ParseChildren]: the node appended for the
    key [child] and its value [next], or [None] when no case applies.
    [PC] is [ParseChildren] itself. *)
Definition entryNode
           (PC : yaml.Node -> string -> bool -> outcome (list YAMLNode))
           (parentAnchor : string) (parentWasMap : bool)
           (child next : yaml.Node) : outcome (option YAMLNode) :=
  match yaml.KindOf next with
  | yaml.ScalarNode =>
      Ok (Some {| ParentAnchor := parentAnchor;
                  ParentWasMap := parentWasMap;
                  Indent := yaml.Column child;
                  Key := yaml.Value child;
                  Description := yaml.HeadComment child;
                  KindTag := yaml.Tag next;
                  Default := yaml.Value next;
                  Children := [] |})
  | yaml.MappingNode =>
      let mapNode := {| ParentAnchor := parentAnchor;
                        ParentWasMap := parentWasMap;
                        Indent := yaml.Column child;
                        Key := yaml.Value child;
                        Description := yaml.HeadComment child;
                        KindTag := yaml.Tag next;
                        Default := "";
                        Children := [] |} in
      children <- PC next (Anchor mapNode) false ;;
      Ok (Some {| ParentAnchor := parentAnchor;
                  ParentWasMap := parentWasMap;
                  Indent := yaml.Column child;
                  Key := yaml.Value child;
                  Description := yaml.HeadComment child;
                  KindTag := yaml.Tag next;
                  Default := "";
                  Children := children |})
  | yaml.SequenceNode =>
      if (List.length (yaml.Content next) =? 0)%nat then
        Ok (Some {| ParentAnchor := parentAnchor;
                    ParentWasMap := parentWasMap;
                    Indent := yaml.Column child;
                    Key := yaml.Value child;
                    Default := "[]";
                    Description := yaml.HeadComment child;
                    KindTag := yaml.Tag next;
                    Children := [] |})
      else if allScalars (yaml.Content next) then
        default <- toYaml (yaml.Content next) ;;
        Ok (Some {| ParentAnchor := parentAnchor;
                    ParentWasMap := parentWasMap;
                    Indent := yaml.Column child;
                    Key := yaml.Value child;
                    Default := default;
                    Description := yaml.HeadComment child;
                    KindTag := yaml.Tag next;
                    Children := [] |})
      else
        let seqNode := {| ParentAnchor := parentAnchor;
                          ParentWasMap := parentWasMap;
                          Indent := yaml.Column child;
                          Key := yaml.Value child;
                          Description := yaml.HeadComment child;
                          KindTag := yaml.Tag next;
                          Default := "";
                          Children := [] |} in
        children <- PC next (Anchor seqNode) false ;;
        Ok (Some {| ParentAnchor := parentAnchor;
                    ParentWasMap := parentWasMap;
                    Indent := yaml.Column child;
                    Key := yaml.Value child;
                    Description := yaml.HeadComment child;
                    KindTag := yaml.Tag next;
                    Default := "";
                    Children := children |})
  | _ => Ok None
  end.

Definition appendNode (children : list YAMLNode) (e : option YAMLNode)
  : list YAMLNode :=
  match e with
  | Some y => children ++ [y]
  | None => children
  end.

(** The loop of [ParseChildren] over [n.Content]: [content] is the whole
    slice, [rest] is [content[i:]] and [children] the nodes appended so
    far.  A key at [i] takes its value at [i+1], which [skipNext] makes
    the loop pass over.  [PC] and [PN] are [ParseChildren] and
    [ParseNode]. *)
Definition childrenLoop
           (PC : yaml.Node -> string -> bool -> outcome (list YAMLNode))
           (PN : yaml.Node -> string -> outcome YAMLNode)
           (content : list yaml.Node)
           (parentAnchor : string) (parentWasMap : bool)
  : list yaml.Node -> nat -> list YAMLNode -> outcome (list YAMLNode) :=
  fix loop (rest : list yaml.Node) (i : nat) (children : list YAMLNode) :=
    match rest with
    | [] => Ok children
    | child :: rest' =>
        if yaml.isScalar child then
          if (List.length content <? i + 1)%nat then Panic "wrong length"
          else
            match rest' with
            | [] => Panic indexOutOfRange
            | next :: rest'' =>
                e <- entryNode PC parentAnchor parentWasMap child next ;;
                loop rest'' (i + 2)%nat (appendNode children e)
            end
        else if (List.length content =? 1)%nat then
          match content with
          | first :: _ => PC first parentAnchor true
          | [] => Panic indexOutOfRange
          end
        else
          y <- PN child parentAnchor ;;
          loop rest' (i + 1)%nat (children ++ [y])%list
    end.

Fixpoint ParseChildren (n : yaml.Node) (parentAnchor : string)
         (parentWasMap : bool) {struct n} : outcome (list YAMLNode) :=
  match n with
  | yaml.mkNode _ _ _ _ _ content =>
      childrenLoop ParseChildren ParseNode content parentAnchor parentWasMap
                   content 0%nat []
  end
with ParseNode (n : yaml.Node) (parentAnchor : string) {struct n}
     : outcome YAMLNode :=
  match n with
  | yaml.mkNode kind tag value headComment column content =>
      let children (anchor : string) :=
        childrenLoop ParseChildren ParseNode content anchor false
                     content 0%nat [] in
      match kind with
      | yaml.DocumentNode =>
          match content with
          | first :: _ => ParseNode first ""
          | [] => Panic indexOutOfRange
          end
      | yaml.MappingNode =>
          if String.eqb parentAnchor "" then
            cs <- children "" ;;
            Ok {| Indent := 0; ParentAnchor := ""; ParentWasMap := false;
                  Key := ""; Default := ""; Description := "";
                  KindTag := ""; Children := cs |}
          else
            cs <- children parentAnchor ;;
            Ok {| Indent := column; ParentAnchor := parentAnchor;
                  ParentWasMap := false; Key := value; Default := "";
                  Description := headComment; KindTag := tag;
                  Children := cs |}
      | yaml.ScalarNode => Panic "scalars should not be parsed here"
      | _ => Ok zeroYAMLNode
      end
  end.

Definition Parse (yamlStr : string) : outcome YAMLNode :=
  match Unmarshal yamlStr with
  | Ok node => ParseNode node ""
  | Err e => Err e
  | Panic p => Panic p
  end.

(** The loop of [GenChildren] over [node.Children]: [out] holds the
    fragments appended so far.  [GC] is [GenChildren]. *)
Definition genLoop (GC : YAMLNode -> outcome (list string))
  : list YAMLNode -> list string -> outcome (list string) :=
  fix loop (cs : list YAMLNode) (out : list string) :=
    match cs with
    | [] => Ok out
    | child :: cs' =>
        nodeOut <- Execute child ;;
        childOut <- GC child ;;
        loop cs' ((out ++ [nodeOut]) ++ childOut)%list
    end.

Fixpoint GenChildren (node : YAMLNode) : outcome (list string) :=
  genLoop GenChildren (Children node) [].

Definition Gen (yamlStr : string) : outcome string :=
  match Parse yamlStr with
  | Ok node =>
      children <- GenChildren node ;;
      Ok (Join children (nl ++ nl))
  | Err e => Err e
  | Panic p => Panic p
  end.

End Generator.


(** * Definitions of the properties *)

(** ** What the override patterns match *)

(** The text after the last occurrence of [lit] in [line], if it occurs. *)
Fixpoint afterLast (lit line : string) : option string :=
  match line with
  | "" => regexp.stripLit lit line
  | String _ line' =>
      match afterLast lit line' with
      | Some v => Some v
      | None => regexp.stripLit lit line
      end
  end.

(** The first line for which [f] gives a value. *)
Fixpoint firstSome {A : Type} (f : string -> option A) (lines : list string)
  : option A :=
  match lines with
  | [] => None
  | l :: ls =>
      match f l with
      | Some v => Some v
      | None => firstSome f ls
      end
  end.

Fixpoint noNewline (s : string) : bool :=
  match s with
  | "" => true
  | String c s' => regexp.dot c && noNewline s'
  end.

(** The text that follows a line: nothing, or a newline and more. *)
Definition lineEnd (rest : string) : Prop :=
  rest = "" \/ exists r, rest = String newline r.

(** The shape of the two override patterns, for the literal [lit]. *)
Definition fromDescription (lit : string) : regexp.Regexp :=
  [regexp.Star regexp.dot; regexp.Lit lit; regexp.CapStar regexp.dot;
   regexp.EndLine].

(** The override a comment block supplies for [lit]: that of its first
    line holding [lit]. *)
Definition overrideOf (lit description : string) : option string :=
  firstSome (afterLast lit) (SplitLines description).

(** ** What a line adds to the description

    [pad] is the number of spaces before a subsequent line, [i] the index
    of the line in the block. *)
Definition descPiece (pad i : nat) (line : string) : string :=
  if isOverrideLine line then ""
  else if (i =? 0)%nat then line ++ nl
  else if String.eqb line "" then nl
  else spaces pad ++ line ++ nl.

Fixpoint descPieces (pad i : nat) (lines : list string) : string :=
  match lines with
  | [] => ""
  | line :: rest => descPiece pad i line ++ descPieces pad (S i) rest
  end.

(** The lines of the description once the comment prefixes are removed. *)
Definition descLines (y : YAMLNode) : list string :=
  SplitLines (regexp.ReplaceAllString_empty commentPrefix (Description y)).

(** The description rendered from the lines [lines], the first of which
    has index [i]. *)
Definition renderLines (y : YAMLNode) (i : nat) (lines : list string)
  : outcome string :=
  out <- descLoop y "" i lines ;; Ok (TrimSuffix out nl).

(** ** Sample documents

    Node graphs as yaml.v3 builds them, written by hand, and simple
    stand-ins for the library calls, for evaluating the program on
    concrete inputs. *)

Module Sample.

(** [strings.ToLower] on ASCII letters. *)
Definition lowerByte (c : ascii) : ascii :=
  let n := nat_of_ascii c in
  if ((65 <=? n) && (n <=? 90))%nat then ascii_of_nat (n + 32) else c.

Fixpoint ToLower (s : string) : string :=
  match s with
  | "" => ""
  | String c s' => String (lowerByte c) (ToLower s')
  end.

(** The flow form of a sequence of plain scalars, as the field [arr]. *)
Definition Marshal (content : list yaml.Node) : outcome string :=
  Ok ("arr: [" ++ String.concat ", " (map yaml.Value content) ++ "]" ++ nl).

Definition scalar (tag value comment : string) (column : Z) : yaml.Node :=
  yaml.mkNode yaml.ScalarNode tag value comment column [].

Definition key (value comment : string) (column : Z) : yaml.Node :=
  scalar "!!str" value comment column.

Definition mapping (column : Z) (content : list yaml.Node) : yaml.Node :=
  yaml.mkNode yaml.MappingNode "!!map" "" "" column content.

Definition sequence (column : Z) (content : list yaml.Node) : yaml.Node :=
  yaml.mkNode yaml.SequenceNode "!!seq" "" "" column content.

Definition document (content : list yaml.Node) : yaml.Node :=
  yaml.mkNode yaml.DocumentNode "" "" "" 1 content.

(** The parser gives back the graph [n] for the text read. *)
Definition Unmarshal (n : yaml.Node) (_ : string) : outcome yaml.Node := Ok n.

Definition ParseChildren := ParseChildren ToLower Marshal.
Definition ParseNode := ParseNode ToLower Marshal.
Definition Gen (n : yaml.Node) : outcome string :=
  Gen ToLower Marshal (Unmarshal n) "".

Definition rootNode (children : list YAMLNode) : YAMLNode :=
  {| Indent := 0; ParentAnchor := ""; ParentWasMap := false; Key := "";
     Default := ""; Description := ""; KindTag := ""; Children := children |}.

(** A mapping under a key, whose own key has a comment of two lines:
<<
server:
# First.
# Second.
replicas: 3
>> *)
Definition plainMappingDoc : yaml.Node :=
  document
    [mapping 1
       [key "server" "" 1;
        mapping 3
          [key "replicas" ("# First." ++ nl ++ "# Second.") 3;
           scalar "!!int" "3" "" 13]]].

Definition replicas : YAMLNode :=
  {| Indent := 3; ParentAnchor := "-server"; ParentWasMap := false;
     Key := "replicas"; Default := "3";
     Description := "# First." ++ nl ++ "# Second.";
     KindTag := "!!int"; Children := [] |}.

Definition server : YAMLNode :=
  {| Indent := 1; ParentAnchor := ""; ParentWasMap := false;
     Key := "server"; Default := ""; Description := "";
     KindTag := "!!map"; Children := [replicas] |}.

(** A document whose top-level mapping has exactly one entry:
<<
# The only key.
global: x
>> *)
Definition oneEntryDoc : yaml.Node :=
  document
    [mapping 1 [key "global" "# The only key." 1; scalar "!!str" "x" "" 9]].

Definition global : YAMLNode :=
  {| Indent := 1; ParentAnchor := ""; ParentWasMap := false;
     Key := "global"; Default := "x"; Description := "# The only key.";
     KindTag := "!!str"; Children := [] |}.

(** A sequence of one mapping under a key:
<<
ports:
- name: http
>> *)
Definition portsValue : yaml.Node :=
  sequence 3 [mapping 5 [key "name" "" 5; scalar "!!str" "http" "" 11]].

Definition seqOfMapDoc : yaml.Node :=
  document [mapping 1 [key "ports" "" 1; portsValue]].

Definition name : YAMLNode :=
  {| Indent := 5; ParentAnchor := "-ports"; ParentWasMap := true;
     Key := "name"; Default := "http"; Description := "";
     KindTag := "!!str"; Children := [] |}.

Definition ports : YAMLNode :=
  {| Indent := 1; ParentAnchor := ""; ParentWasMap := false;
     Key := "ports"; Default := ""; Description := "";
     KindTag := "!!seq"; Children := [name] |}.

(** A sequence of one sequence of one mapping under a key:
<<
a:
- - b: 1
>> *)
Definition nestedSeqDoc : yaml.Node :=
  document
    [mapping 1
       [key "a" "" 1;
        sequence 3
          [sequence 5 [mapping 7 [key "b" "" 7; scalar "!!int" "1" "" 10]]]]].

Definition b : YAMLNode :=
  {| Indent := 7; ParentAnchor := "-a"; ParentWasMap := true;
     Key := "b"; Default := "1"; Description := "";
     KindTag := "!!int"; Children := [] |}.

Definition a : YAMLNode :=
  {| Indent := 1; ParentAnchor := ""; ParentWasMap := false;
     Key := "a"; Default := ""; Description := "";
     KindTag := "!!seq"; Children := [b] |}.

(** A key with an empty mapping: [resources: {}]. *)
Definition emptyMapDoc : yaml.Node :=
  document [mapping 1 [key "resources" "" 1; mapping 12 []]].

Definition resources : YAMLNode :=
  {| Indent := 1; ParentAnchor := ""; ParentWasMap := false;
     Key := "resources"; Default := ""; Description := "";
     KindTag := "!!map"; Children := [] |}.

(** A document that is one scalar, the document of the text [---], whose
    value is the null scalar, the node the parser leaves unfilled on the
    empty text, and a mapping whose last key has no value node. *)
Definition scalarDoc : yaml.Node := document [scalar "!!str" "text" "" 1].
Definition nullDoc : yaml.Node := document [scalar "!!null" "" "" 1].
Definition unfilled : yaml.Node := yaml.mkNode yaml.ZeroKind "" "" "" 0 [].

(** A mapping below a key of the single element of a sequence:
<<
ports:
  - http:
      port: 80
>> *)
Definition httpValue : yaml.Node :=
  mapping 7 [key "port" "" 7; scalar "!!int" "80" "" 13].

Definition deepDoc : yaml.Node :=
  document
    [mapping 1
       [key "ports" "" 1;
        sequence 3 [mapping 5 [key "http" "" 5; httpValue]]]].

Definition port : YAMLNode :=
  {| Indent := 7; ParentAnchor := "-ports-http"; ParentWasMap := false;
     Key := "port"; Default := "80"; Description := "";
     KindTag := "!!int"; Children := [] |}.

Definition http : YAMLNode :=
  {| Indent := 5; ParentAnchor := "-ports"; ParentWasMap := true;
     Key := "http"; Default := ""; Description := "";
     KindTag := "!!map"; Children := [port] |}.

Definition deepPorts : YAMLNode :=
  {| Indent := 1; ParentAnchor := ""; ParentWasMap := false;
     Key := "ports"; Default := ""; Description := "";
     KindTag := "!!seq"; Children := [http] |}.
Definition danglingMapping : yaml.Node :=
  mapping 1 [key "a" "" 1; scalar "!!int" "1" "" 4; key "b" "" 1].

End Sample.

(** ** Sample nodes *)

Definition leaf (indent : Z) (parentWasMap : bool)
           (default description kindTag : string) : YAMLNode :=
  {| Indent := indent; ParentAnchor := ""; ParentWasMap := parentWasMap;
     Key := "key"; Default := default; Description := description;
     KindTag := kindTag; Children := [] |}.

(** Two [type:] lines and two [default:] lines in one block. *)
Definition twoOverrides : YAMLNode :=
  leaf 1 false "x"
       ("# type: string" ++ nl ++ "# default: 1" ++ nl
        ++ "# type: integer" ++ nl ++ "# default: 2") "!!str".

(** An override in the middle of a sentence. *)
Definition inlineOverride : YAMLNode :=
  leaf 1 false "x" "# Sets the type: integer" "!!str".

(** An override after two blanks. *)
Definition indentedOverride : YAMLNode :=
  leaf 1 false "x" "#  type: integer" "!!str".

(** The node of the override scenario: a string with default [x]. *)
Definition overridden : YAMLNode :=
  leaf 1 false "x"
       ("# The setting." ++ nl ++ "# type: integer" ++ nl ++ "# default: 5")
       "!!str".



Definition threeLineDescription (parentWasMap : bool) : YAMLNode :=
  leaf 3 parentWasMap "x"
       ("# First." ++ nl ++ "#" ++ nl ++ "# Third.") "!!str".

(** ** The order of the fragments *)

(** The nodes below [y], each parent followed by its own descendants and
    then by its next sibling. *)
Fixpoint descendants (y : YAMLNode) : list YAMLNode :=
  flat_map (fun c => c :: descendants c) (Children y).

Definition preorder (nodes : list YAMLNode) : list YAMLNode :=
  flat_map (fun c => c :: descendants c) nodes.

(** One result per element, in order; the first failure is the result. *)
Fixpoint forEach {A B : Type} (f : A -> outcome B) (l : list A)
  : outcome (list B) :=
  match l with
  | [] => Ok []
  | a :: l' =>
      b <- f a ;;
      bs <- forEach f l' ;;
      Ok (b :: bs)
  end.

Fixpoint nodeSize (y : YAMLNode) : nat :=
  S (list_sum (map nodeSize (Children y))).

(** ** Outcomes of the builder *)

Definition noErr {A : Type} (m : outcome A) : Prop := forall e, m <> Err e.

(** Neither function returns an error on [n]. *)
Definition nodeNoErr (ToLower : string -> string)
           (Marshal : list yaml.Node -> outcome string) (n : yaml.Node) : Prop :=
  (forall a b, noErr (ParseChildren ToLower Marshal n a b))
  /\ (forall a, noErr (ParseNode ToLower Marshal n a)).

(** ** Shapes of a node's content *)

(** The content of a mapping as the parser builds it: keys and values in
    turn, every key a scalar. *)
Fixpoint keyed (content : list yaml.Node) : bool :=
  match content with
  | [] => true
  | k :: v :: rest => yaml.isScalar k && keyed rest
  | [_] => false
  end.

(** The loop reaches a scalar in key position that is the last node of
    the content. *)
Inductive danglingKey : list yaml.Node -> Prop :=
| dangling_last (k : yaml.Node) :
    yaml.isScalar k = true -> danglingKey [k]
| dangling_pair (k v : yaml.Node) (rest : list yaml.Node) :
    yaml.isScalar k = true -> danglingKey rest -> danglingKey (k :: v :: rest)
| dangling_skip (c : yaml.Node) (rest : list yaml.Node) :
    yaml.isScalar c = false -> danglingKey rest -> danglingKey (c :: rest).

(** A value node for which [ParseChildren] has a case. *)
Definition hasCase (v : yaml.Node) : bool :=
  match yaml.KindOf v with
  | yaml.ScalarNode | yaml.MappingNode | yaml.SequenceNode => true
  | _ => false
  end.


(** ** Further shapes and samples *)

(** The count [LeadingIndent] passes to [strings.Repeat]. *)
Definition leadingCount (y : YAMLNode) : Z :=
  if ParentWasMap y then (Indent y - 3)%Z else (Indent y - 1)%Z.

(** A node kind for which [ParseNode] has no case: it gives the zero
    [YAMLNode]. *)
Definition withoutCase (n : yaml.Node) : bool :=
  match yaml.KindOf n with
  | yaml.ZeroKind | yaml.SequenceNode | yaml.AliasNode => true
  | _ => false
  end.

(** A flow sequence continued at the start of the next line, so that the
    key of its mapping is at column 2:
<<
a: [
{b: 1}]
>> *)
Definition shallowFlowDoc : yaml.Node :=
  Sample.document
    [Sample.mapping 1
       [Sample.key "a" "" 1;
        Sample.sequence 4
          [Sample.mapping 1
             [Sample.key "b" "" 2; Sample.scalar "!!int" "1" "" 5]]]].

Definition shallowB : YAMLNode :=
  {| Indent := 2; ParentAnchor := "-a"; ParentWasMap := true;
     Key := "b"; Default := "1"; Description := "";
     KindTag := "!!int"; Children := [] |}.

Definition shallowA : YAMLNode :=
  {| Indent := 1; ParentAnchor := ""; ParentWasMap := false;
     Key := "a"; Default := ""; Description := "";
     KindTag := "!!seq"; Children := [shallowB] |}.

(** A document that is a sequence: [- x]. *)
Definition sequenceDoc : yaml.Node :=
  Sample.document [Sample.sequence 1 [Sample.scalar "!!str" "x" "" 3]].

(** The keys of a content with their values, for the values
    [ParseChildren] has a case for. *)
Fixpoint entries (content : list yaml.Node) : list (yaml.Node * yaml.Node) :=
  match content with
  | k :: v :: rest => if hasCase v then (k, v) :: entries rest else entries rest
  | _ => []
  end.

(** The node [y] documents the key [k] with value [v]. *)
Definition documents (parentAnchor : string) (parentWasMap : bool)
           (kv : yaml.Node * yaml.Node) (y : YAMLNode) : Prop :=
  Key y = yaml.Value (fst kv)
  /\ Indent y = yaml.Column (fst kv)
  /\ Description y = yaml.HeadComment (fst kv)
  /\ KindTag y = yaml.Tag (snd kv)
  /\ ParentAnchor y = parentAnchor
  /\ ParentWasMap y = parentWasMap.

(** A mapping with an alias among its values:
<<
base: &b 1
copy: *b
last: x
>> *)
Definition aliasDoc : yaml.Node :=
  Sample.mapping 1
    [Sample.key "base" "" 1; Sample.scalar "!!int" "1" "" 10;
     Sample.key "copy" "" 1; yaml.mkNode yaml.AliasNode "" "b" "" 7 [];
     Sample.key "last" "# Last." 1; Sample.scalar "!!str" "x" "" 7].

Definition keyLeaf (key : string) (indent : Z)
           (default description kindTag : string) : YAMLNode :=
  {| Indent := indent; ParentAnchor := ""; ParentWasMap := false;
     Key := key; Default := default; Description := description;
     KindTag := kindTag; Children := [] |}.

(** ** Plain documents

    A mapping as the parser builds it from nested mappings: keys and
    values in turn, every key a scalar at a column of the text (columns
    start at 1), every value a scalar, a sequence of scalars or again such
    a mapping. *)
Definition plainPairs (plain : yaml.Node -> bool)
  : list yaml.Node -> bool :=
  fix pairs (content : list yaml.Node) : bool :=
    match content with
    | [] => true
    | k :: v :: rest =>
        yaml.isScalar k && (1 <=? yaml.Column k)%Z && plain v && pairs rest
    | [_] => false
    end.

Fixpoint plainValue (v : yaml.Node) : bool :=
  match v with
  | yaml.mkNode kind _ _ _ _ content =>
      match kind with
      | yaml.ScalarNode => true
      | yaml.SequenceNode => allScalars content
      | yaml.MappingNode => plainPairs plainValue content
      | _ => false
      end
  end.

(** The tree below [y] as the builder makes it from a plain mapping: no
    flag, the column of a key as indent, and as [ParentAnchor] the anchor
    of the node above ([anchor] for [y] itself). *)
Fixpoint wellBuilt (ToLower : string -> string) (anchor : string)
         (y : YAMLNode) : bool :=
  String.eqb (ParentAnchor y) anchor
  && negb (ParentWasMap y)
  && (1 <=? Indent y)%Z
  && forallb (wellBuilt ToLower (ParentAnchor y ++ "-" ++ ToLower (Key y)))
             (Children y).

(** [Marshal] succeeds on the sequences of scalars. *)
Definition marshalsScalars (Marshal : list yaml.Node -> outcome string) : Prop :=
  forall content, allScalars content = true -> exists out, Marshal content = Ok out.

(** What the builder does on the plain mapping [n]. *)
Definition buildsWell (ToLower : string -> string)
           (Marshal : list yaml.Node -> outcome string) (n : yaml.Node) : Prop :=
  yaml.KindOf n = yaml.MappingNode -> plainValue n = true ->
  forall anchor,
  exists cs,
    ParseChildren ToLower Marshal n anchor false = Ok cs
    /\ forallb (wellBuilt ToLower anchor) cs = true.

(** ** Characters of a text *)

Fixpoint occurs (c : ascii) (s : string) : bool :=
  match s with
  | "" => false
  | String d s' => Ascii.eqb c d || occurs c s'
  end.

Definition hash : ascii := "#"%char.

(** A comment with a marker inside a sentence. *)
Definition issueComment : YAMLNode :=
  leaf 1 false "x" ("# See issue #12." ++ nl ++ "# type: string") "!!str".

Definition onlyOverrides : YAMLNode :=
  leaf 1 false "x" ("# type: integer" ++ nl ++ "# default: 5") "!!str".

(** [n] exclamation marks. *)
Fixpoint bangs (n : nat) : string :=
  match n with
  | O => ""
  | S k => String "!" (bangs k)
  end.

(** A sequence of two mappings under a key:
<<
ports:
  - name: http
  - name: grpc
>> *)
Definition httpPort : yaml.Node :=
  Sample.mapping 5 [Sample.key "name" "" 5; Sample.scalar "!!str" "http" "" 11].

Definition grpcPort : yaml.Node :=
  Sample.mapping 5 [Sample.key "name" "" 5; Sample.scalar "!!str" "grpc" "" 11].

Definition twoPorts : yaml.Node := Sample.sequence 3 [httpPort; grpcPort].

(** The node [ParseNode] builds for the mapping [m] below the anchor
    [parentAnchor], with the children [cs]. *)
Definition elementNode (parentAnchor : string) (m : yaml.Node)
           (cs : list YAMLNode) : YAMLNode :=
  {| Indent := yaml.Column m; ParentAnchor := parentAnchor;
     ParentWasMap := false; Key := yaml.Value m; Default := "";
     Description := yaml.HeadComment m; KindTag := yaml.Tag m;
     Children := cs |}.

(** * Properties *)

(** ** What the override patterns match *)

Lemma lineEnd_greedy_dot {R : Type} (k : string -> string -> option R) rest :
  lineEnd rest -> regexp.greedy regexp.dot k rest = k "" rest.
Proof.
  intros [-> | [r ->]]; reflexivity.
Qed.

Lemma greedy_dot_takes_line {R : Type} (v rest : string) :
  noNewline v = true -> lineEnd rest ->
  forall (k : string -> string -> option R) (r : R),
    k v rest = Some r -> regexp.greedy regexp.dot k (v ++ rest) = Some r.
Proof.
  induction v as [|c v IH]; intros Hv Hrest k r Hk; simpl in *.
  - rewrite lineEnd_greedy_dot; assumption.
  - apply andb_prop in Hv as [Hc Hv]. rewrite Hc.
    rewrite (IH Hv Hrest (fun taken rest0 => k (String c taken) rest0) r Hk).
    reflexivity.
Qed.

Lemma dropBytes_app (l a rest : string) :
  String.prefix l a = true ->
  dropBytes (String.length l) (a ++ rest) = dropBytes (String.length l) a ++ rest.
Proof.
  revert a; induction l as [|c l IH]; intros a H; simpl in *.
  - destruct a; reflexivity.
  - destruct a as [|d a]; [discriminate|]. simpl in *.
    destruct (ascii_dec c d); [|discriminate]. apply IH; assumption.
Qed.

Lemma noNewline_dropBytes n (a : string) :
  noNewline a = true -> noNewline (dropBytes n a) = true.
Proof.
  revert a; induction n as [|n IH]; intros [|c a] H; simpl in *; auto.
  apply andb_prop in H as [_ H]. auto.
Qed.

Lemma prefix_lineEnd (l a rest : string) :
  noNewline l = true -> lineEnd rest ->
  String.prefix l (a ++ rest) = String.prefix l a.
Proof.
  intros Hl Hrest. revert a.
  induction l as [|c l IH]; intros a.
  - destruct a; simpl; destruct rest; reflexivity.
  - cbn [noNewline] in Hl. apply andb_prop in Hl as [Hc Hl].
    destruct a as [|d a]; simpl.
    + destruct Hrest as [-> | [r ->]]; [reflexivity|]. simpl.
      destruct (ascii_dec c newline) as [->|]; [discriminate|reflexivity].
    + destruct (ascii_dec c d); [|reflexivity]. apply IH; assumption.
Qed.

Lemma dot_newline c : regexp.dot c = negb (Ascii.eqb c newline).
Proof. reflexivity. Qed.

(** The first segment of [SplitLines] is the text up to the first newline. *)
Lemma SplitLines_head (s : string) :
  exists l ls rest,
    SplitLines s = l :: ls /\ s = l ++ rest /\ noNewline l = true /\ lineEnd rest.
Proof.
  induction s as [|c s (l & ls & rest & E & Es & Hl & Hrest)].
  - exists "", [], "". repeat split; left; reflexivity.
  - cbn [SplitLines]. destruct (Ascii.eqb c newline) eqn:Ec.
    + apply Ascii.eqb_eq in Ec as ->.
      exists "", (SplitLines s), (String newline s).
      repeat split. right. exists s. reflexivity.
    + exists (String c l), ls, rest. rewrite E, Es.
      repeat split; [|assumption].
      cbn [noNewline]. rewrite dot_newline, Ec, Hl. reflexivity.
Qed.

Section OverridePattern.

(** The literal of the pattern: not empty, without a newline. *)
Variable lit : string.
Hypothesis lit_line : noNewline lit = true.
Hypothesis lit_not_empty : lit <> "".

Lemma stripLit_lineEnd (a rest : string) :
  lineEnd rest ->
  regexp.stripLit lit (a ++ rest) =
    match regexp.stripLit lit a with
    | Some v => Some (v ++ rest)
    | None => None
    end.
Proof.
  intros Hrest. unfold regexp.stripLit.
  rewrite (prefix_lineEnd lit a rest lit_line Hrest).
  destruct (String.prefix lit a) eqn:E; [|reflexivity].
  rewrite dropBytes_app by assumption. reflexivity.
Qed.

(** The pattern below its leading [.*], at the start of [a]. *)
Lemma run_after_star (a rest : string) :
  noNewline a = true -> lineEnd rest ->
  regexp.run [regexp.Lit lit; regexp.CapStar regexp.dot; regexp.EndLine]
             (a ++ rest)
  = match regexp.stripLit lit a with
    | Some v => Some ([v], rest)
    | None => None
    end.
Proof.
  intros Ha Hrest. cbn [regexp.run].
  rewrite (stripLit_lineEnd a rest Hrest).
  unfold regexp.stripLit.
  destruct (String.prefix lit a); [|reflexivity].
  apply greedy_dot_takes_line; auto using noNewline_dropBytes.
  destruct Hrest as [-> | [r ->]]; reflexivity.
Qed.

(** At the start of a line, the pattern matches when the line holds the
    literal, and captures what follows its last occurrence. *)
Lemma run_line (line rest : string) :
  noNewline line = true -> lineEnd rest ->
  regexp.run (fromDescription lit) (line ++ rest)
  = match afterLast lit line with
    | Some v => Some ([v], rest)
    | None => None
    end.
Proof.
  intros Hline Hrest. unfold fromDescription. cbn [regexp.run].
  induction line as [|c line IH].
  - cbn [append afterLast]. rewrite lineEnd_greedy_dot by assumption.
    apply (run_after_star "" rest); auto.
  - cbn [noNewline] in Hline. apply andb_prop in Hline as [Hc Hline].
    cbn [append regexp.greedy afterLast]. rewrite Hc.
    specialize (IH Hline). cbv beta. rewrite IH.
    destruct (afterLast lit line); [reflexivity|].
    apply (run_after_star (String c line) rest); auto.
    cbn [noNewline]. rewrite Hc, Hline. reflexivity.
Qed.

Lemma afterLast_tail c (line : string) :
  afterLast lit (String c line) = None -> afterLast lit line = None.
Proof.
  cbn [afterLast]. destruct (afterLast lit line); [discriminate|reflexivity].
Qed.

Lemma afterLast_empty : afterLast lit "" = None.
Proof.
  cbn. destruct lit; [contradiction|reflexivity].
Qed.

Lemma run_at_lineEnd (rest : string) :
  lineEnd rest -> regexp.run (fromDescription lit) rest = None.
Proof.
  intros Hrest. pose proof (run_line "" rest eq_refl Hrest) as H.
  rewrite afterLast_empty in H. exact H.
Qed.

(** The leftmost match is in the first line that holds the literal. *)
Lemma search_lines (s : string) :
  regexp.FindStringSubmatch (fromDescription lit) s
  = option_map (fun v => [v]) (firstSome (afterLast lit) (SplitLines s)).
Proof.
  unfold regexp.FindStringSubmatch.
  induction s as [|c s IH].
  - cbn [regexp.search SplitLines firstSome].
    rewrite run_at_lineEnd by (left; reflexivity).
    rewrite afterLast_empty. reflexivity.
  - cbn [regexp.search SplitLines].
    destruct (Ascii.eqb c newline) eqn:Ec.
    + apply Ascii.eqb_eq in Ec as ->.
      rewrite run_at_lineEnd by (right; eexists; reflexivity).
      cbn [firstSome]. rewrite afterLast_empty. exact IH.
    + destruct (SplitLines_head s) as (l & ls & rest & E & Es & Hl & Hrest).
      rewrite E in *. rewrite Es at 1.
      change (String c (l ++ rest)) with (String c l ++ rest).
      rewrite run_line;
        [|cbn [noNewline]; rewrite dot_newline, Ec, Hl; reflexivity|assumption].
      cbn [firstSome] in *.
      destruct (afterLast lit (String c l)) eqn:El; [reflexivity|].
      apply afterLast_tail in El. rewrite El in IH. exact IH.
Qed.

End OverridePattern.

Lemma typeFromDescription_lines (s : string) :
  regexp.FindStringSubmatch typeFromDescription s
  = option_map (fun v => [v]) (firstSome (afterLast "type: ") (SplitLines s)).
Proof.
  apply (search_lines "type: "); [reflexivity|discriminate].
Qed.

Lemma defaultFromDescription_lines (s : string) :
  regexp.FindStringSubmatch defaultFromDescription s
  = option_map (fun v => [v]) (firstSome (afterLast "default: ") (SplitLines s)).
Proof.
  apply (search_lines "default: "); [reflexivity|discriminate].
Qed.

Lemma firstSome_app {A : Type} (f : string -> option A) pre line post v :
  Forall (fun l => f l = None) pre -> f line = Some v ->
  firstSome f (pre ++ line :: post) = Some v.
Proof.
  induction 1 as [|l pre Hl _ IH]; intros Hv; cbn.
  - rewrite Hv. reflexivity.
  - rewrite Hl. auto.
Qed.


Lemma Kind_override (y : YAMLNode) :
  Kind y = match overrideOf "type: " (Description y) with
           | Some v => v
           | None => kindOfTag (KindTag y)
           end.
Proof.
  unfold Kind, overrideOf. rewrite typeFromDescription_lines.
  destruct (firstSome _ _); reflexivity.
Qed.

Lemma FormattedDefault_override (y : YAMLNode) :
  FormattedDefault y = match overrideOf "default: " (Description y) with
                       | Some v => v
                       | None => defaultOfValue (Kind y) (Default y)
                       end.
Proof.
  unfold FormattedDefault, overrideOf. rewrite defaultFromDescription_lines.
  destruct (firstSome _ _); reflexivity.
Qed.

(** C1, as the program has it: an override line is a line that holds
    [type: ] (or [default: ]) anywhere, its value is what follows the last
    occurrence in that line, and of several such lines in a block the
    first one decides the kind (and the default); the tag and the value
    decide only when no line holds the literal. *)
Theorem override_first_line_wins (y : YAMLNode) :
  Kind y
  = match firstSome (afterLast "type: ") (SplitLines (Description y)) with
    | Some v => v
    | None => kindOfTag (KindTag y)
    end
  /\ FormattedDefault y
     = match firstSome (afterLast "default: ") (SplitLines (Description y)) with
       | Some v => v
       | None => defaultOfValue (Kind y) (Default y)
       end.
Proof.
  split; [apply Kind_override | apply FormattedDefault_override].
Qed.

(** C1 as stated fails: with two [type:] lines and two [default:] lines the
    values of the first lines are rendered, not those of the last; and a
    line that only contains [type: ] counts as an override. *)
Lemma override_last_line_loses :
  Kind twoOverrides = "string" /\ Kind twoOverrides <> "integer"
  /\ FormattedDefault twoOverrides = "1" /\ FormattedDefault twoOverrides <> "2"
  /\ Kind inlineOverride = "integer".
Proof.
  repeat split; try reflexivity; vm_compute; discriminate.
Qed.

(** ** The default *)




(** ** The description *)

Lemma append_assoc (a b c : string) : (a ++ b) ++ c = a ++ b ++ c.
Proof.
  induction a as [|x a IH]; cbn; [reflexivity|]. rewrite IH. reflexivity.
Qed.

Lemma append_nil_r (a : string) : a ++ "" = a.
Proof.
  induction a as [|x a IH]; cbn; [reflexivity|]. rewrite IH. reflexivity.
Qed.

Lemma descStep_override y acc i line :
  isOverrideLine line = true -> descStep y acc i line = Ok acc.
Proof.
  intros H. unfold descStep. rewrite H. reflexivity.
Qed.

(** Past the first line the index plays no part. *)
Lemma descStep_index y acc i j line :
  i <> 0%nat -> j <> 0%nat -> descStep y acc i line = descStep y acc j line.
Proof.
  intros Hi Hj. unfold descStep.
  apply Nat.eqb_neq in Hi, Hj. rewrite Hi, Hj. reflexivity.
Qed.

Lemma descLoop_index y lines : forall acc i j,
  i <> 0%nat -> j <> 0%nat -> descLoop y acc i lines = descLoop y acc j lines.
Proof.
  induction lines as [|line rest IH]; intros acc i j Hi Hj; cbn [descLoop].
  - reflexivity.
  - rewrite (descStep_index y acc i j line Hi Hj).
    destruct (descStep y acc j line); cbn [bind]; auto.
Qed.

Lemma descLoop_app y pre : forall acc i post,
  descLoop y acc i (pre ++ post)
  = (acc' <- descLoop y acc i pre ;; descLoop y acc' (i + List.length pre) post).
Proof.
  induction pre as [|line pre IH]; intros acc i post; cbn [descLoop List.app].
  - cbn. rewrite Nat.add_0_r. reflexivity.
  - destruct (descStep y acc i line); cbn [bind]; [|reflexivity..].
    rewrite IH. cbn [List.length]. rewrite Nat.add_succ_r. reflexivity.
Qed.

(** A dropped line below the first can as well be taken out of the block. *)
Lemma descLoop_drop y pre ov post acc i :
  isOverrideLine ov = true -> (i + List.length pre <> 0)%nat ->
  descLoop y acc i (pre ++ ov :: post) = descLoop y acc i (pre ++ post).
Proof.
  intros Hov Hi. rewrite !descLoop_app.
  destruct (descLoop y acc i pre); cbn [bind]; [|reflexivity..].
  cbn [descLoop]. rewrite (descStep_override _ _ _ _ Hov). cbn [bind].
  apply descLoop_index; lia.
Qed.

Lemma descStep_piece y acc i line :
  (0 <= descIndent y)%Z ->
  descStep y acc i line
  = Ok ((if (i =? 0)%nat && negb (isOverrideLine line) then "" else acc)
          ++ descPiece (Z.to_nat (descIndent y)) i line).
Proof.
  intros Hpad. unfold descStep, descPiece, Repeat_space.
  destruct (isOverrideLine line); cbn [negb andb].
  - rewrite andb_false_r, append_nil_r. reflexivity.
  - rewrite andb_true_r. destruct (i =? 0)%nat; [reflexivity|].
    destruct (String.eqb line ""); cbn [negb]; [reflexivity|].
    apply Z.ltb_ge in Hpad. rewrite Hpad. reflexivity.
Qed.

Lemma descLoop_pieces y lines : forall acc i,
  (0 <= descIndent y)%Z -> i <> 0%nat ->
  descLoop y acc i lines
  = Ok (acc ++ descPieces (Z.to_nat (descIndent y)) i lines).
Proof.
  induction lines as [|line rest IH]; intros acc i Hpad Hi;
    cbn [descLoop descPieces].
  - rewrite append_nil_r. reflexivity.
  - rewrite descStep_piece by assumption. cbn [bind].
    apply Nat.eqb_neq in Hi. rewrite Hi. cbn [andb].
    rewrite IH by (auto; lia). rewrite append_assoc. reflexivity.
Qed.

Lemma descLoop_pieces_first y lines :
  (0 <= descIndent y)%Z ->
  descLoop y "" 0 lines = Ok (descPieces (Z.to_nat (descIndent y)) 0 lines).
Proof.
  intros Hpad. destruct lines as [|line rest]; cbn [descLoop descPieces].
  - reflexivity.
  - rewrite descStep_piece by assumption. cbn [bind].
    rewrite descLoop_pieces by (auto; lia).
    destruct ((0 =? 0)%nat && negb (isOverrideLine line)); reflexivity.
Qed.

(** C3, as the program has it: the first line is printed as it is; every
    later line that is not blank is preceded by [Indent + 1] spaces, or by
    exactly [Indent] spaces when the flag [ParentWasMap] is set, which is
    the case for the keys of the single element of a sequence and not for
    those of a plain mapping; a blank line gives a bare newline, the
    override lines give nothing, and one trailing newline is trimmed. *)
Theorem description_reindented (y : YAMLNode) :
  (0 <= (if ParentWasMap y then Indent y else Indent y + 1))%Z ->
  FormattedDescription y
  = Ok (TrimSuffix
          (descPieces
             (Z.to_nat (if ParentWasMap y then Indent y else Indent y + 1))
             0 (descLines y))
          nl).
Proof.
  intros Hpad. unfold FormattedDescription.
  fold (descLines y). rewrite (descLoop_pieces_first y (descLines y) Hpad).
  reflexivity.
Qed.

Lemma description_reindented_witness :
  FormattedDescription (threeLineDescription true)
  = Ok ("First." ++ nl ++ nl ++ "   Third.")
  /\ FormattedDescription (threeLineDescription false)
     = Ok ("First." ++ nl ++ nl ++ "    Third.").
Proof.
  split.
  - apply (description_reindented (threeLineDescription true)). simpl. lia.
  - apply (description_reindented (threeLineDescription false)). simpl. lia.
Defined.

(** C3 as stated fails: [replicas] is a key of a plain mapping, its column
    is 3, and the second line of its description is preceded by four
    spaces, not by three. *)
Lemma plain_mapping_child_gets_one_more_space :
  Sample.ParseNode Sample.plainMappingDoc ""
  = Ok (Sample.rootNode [Sample.server])
  /\ In Sample.replicas (Children Sample.server)
  /\ Indent Sample.replicas = 3%Z
  /\ FormattedDescription Sample.replicas
     = Ok ("First." ++ nl ++ spaces 4 ++ "Second.")
  /\ FormattedDescription Sample.replicas
     <> Ok ("First." ++ nl ++ spaces 3 ++ "Second.").
Proof.
  repeat split; try reflexivity.
  - left. reflexivity.
  - vm_compute. discriminate.
Qed.

(** X14: a line of the comment block that, once its comment prefix is
    removed, starts with [type:] or [default:] adds nothing to the
    description: below the first line the description is the one of the
    block without that line, and when it is the first line the description
    is made of the other lines, all of them rendered as subsequent lines.
    The override values replace the kind and the default found from the
    tag and the value.  For a string node with default [x] whose comment
    ends with the lines [type: integer] and [default: 5], the kind is
    [integer], the default [5] and the description is the remaining
    line. *)
Theorem override_lines_dropped (y : YAMLNode) :
  (forall first pre ov post,
      descLines y = first :: pre ++ ov :: post ->
      isOverrideLine ov = true ->
      FormattedDescription y = renderLines y 0 (first :: pre ++ post))
  /\ (forall ov post,
         descLines y = ov :: post ->
         isOverrideLine ov = true ->
         FormattedDescription y = renderLines y 1 post)
  /\ (forall v, overrideOf "type: " (Description y) = Some v -> Kind y = v)
  /\ (forall v, overrideOf "default: " (Description y) = Some v ->
                FormattedDefault y = v)
  /\ (KindTag overridden = "!!str" /\ Default overridden = "x"
      /\ Kind overridden = "integer" /\ FormattedDefault overridden = "5"
      /\ FormattedDescription overridden = Ok "The setting.").
Proof.
  repeat apply conj; try reflexivity.
  - intros first pre ov post Hlines Hov.
    unfold FormattedDescription, renderLines. fold (descLines y).
    rewrite Hlines.
    change (first :: pre ++ ov :: post)%list
      with ((first :: pre) ++ ov :: post)%list.
    rewrite descLoop_drop by (auto; cbn; lia). reflexivity.
  - intros ov post Hlines Hov.
    unfold FormattedDescription, renderLines. fold (descLines y).
    rewrite Hlines. cbn [descLoop].
    rewrite (descStep_override _ _ _ _ Hov). reflexivity.
  - intros v Hv. rewrite Kind_override, Hv. reflexivity.
  - intros v Hv. rewrite FormattedDefault_override, Hv. reflexivity.
Qed.

Lemma override_lines_dropped_witness :
  FormattedDescription overridden
  = renderLines overridden 0 ["The setting."; "default: 5"]
  /\ FormattedDescription (leaf 1 false "x" "# type: integer" "!!str")
     = renderLines (leaf 1 false "x" "# type: integer" "!!str") 1 []
  /\ Kind overridden = "integer"
  /\ FormattedDefault overridden = "5".
Proof.
  repeat apply conj.
  - apply (proj1 (override_lines_dropped overridden)
                 "The setting." [] "type: integer" ["default: 5"]);
      reflexivity.
  - apply (proj1 (proj2 (override_lines_dropped
                           (leaf 1 false "x" "# type: integer" "!!str")))
                 "type: integer" []); reflexivity.
  - apply (proj1 (proj2 (proj2 (override_lines_dropped overridden))));
      reflexivity.
  - apply (proj1 (proj2 (proj2 (proj2 (override_lines_dropped overridden)))));
      reflexivity.
Defined.

(** C5 fails on the code: the line [#  type: integer], with two blanks
    after the marker, and the line [# Sets the type: integer], which holds
    the override after other words, are taken by [Kind] as the type
    override and are still part of the description.  The pattern of
    [Kind] accepts [type: ] anywhere in a line, while
    [FormattedDescription] discards a line only when it starts with
    [type:] once the marker and at most one blank are removed, although
    its comment in the source says that a type line is discarded. *)
Lemma override_line_kept_in_description :
  Kind indentedOverride = "integer"
  /\ FormattedDescription indentedOverride = Ok " type: integer"
  /\ Kind inlineOverride = "integer"
  /\ FormattedDescription inlineOverride = Ok "Sets the type: integer".
Proof.
  repeat split.
Qed.

(** ** The tree builder *)

Lemma list_length_ind {A : Type} (P : list A -> Prop) :
  (forall l, (forall l', (List.length l' < List.length l)%nat -> P l') -> P l) ->
  forall l, P l.
Proof.
  intros H l.
  assert (G : forall n l', (List.length l' < n)%nat -> P l').
  { induction n as [|n IH]; intros l' Hl; [lia|].
    apply H. intros l'' Hl''. apply IH. lia. }
  apply (G (S (List.length l))). lia.
Qed.

(** Induction on the node graph. *)
Lemma Node_content_ind (P : yaml.Node -> Prop) :
  (forall n, Forall P (yaml.Content n) -> P n) -> forall n, P n.
Proof.
  intros H. fix IH 1. intros [kind tag value comment column content].
  apply H. cbn.
  induction content as [|c content IHc]; constructor; [apply IH | exact IHc].
Qed.

Section Builder.

Variable ToLower : string -> string.
Variable Marshal : list yaml.Node -> outcome string.

Abbreviation ParseChildren := (ParseChildren ToLower Marshal).
Abbreviation ParseNode := (ParseNode ToLower Marshal).
Abbreviation nodeNoErr := (nodeNoErr ToLower Marshal).
Abbreviation loop content parentAnchor parentWasMap :=
  (childrenLoop ToLower Marshal ParseChildren ParseNode content
                parentAnchor parentWasMap).

(** [ParseChildren] is its loop over [n.Content]. *)
Lemma ParseChildren_eq n parentAnchor parentWasMap :
  ParseChildren n parentAnchor parentWasMap
  = loop (yaml.Content n) parentAnchor parentWasMap (yaml.Content n) 0%nat [].
Proof. destruct n. reflexivity. Qed.

(** [ParseNode] as the source has it. *)
Lemma ParseNode_eq n parentAnchor :
  ParseNode n parentAnchor
  = match yaml.KindOf n with
    | yaml.DocumentNode =>
        match yaml.Content n with
        | first :: _ => ParseNode first ""
        | [] => Panic indexOutOfRange
        end
    | yaml.MappingNode =>
        if String.eqb parentAnchor "" then
          cs <- ParseChildren n "" false ;;
          Ok {| Indent := 0; ParentAnchor := ""; ParentWasMap := false;
                Key := ""; Default := ""; Description := "";
                KindTag := ""; Children := cs |}
        else
          cs <- ParseChildren n parentAnchor false ;;
          Ok {| Indent := yaml.Column n; ParentAnchor := parentAnchor;
                ParentWasMap := false; Key := yaml.Value n; Default := "";
                Description := yaml.HeadComment n; KindTag := yaml.Tag n;
                Children := cs |}
    | yaml.ScalarNode => Panic "scalars should not be parsed here"
    | _ => Ok zeroYAMLNode
    end.
Proof. destruct n as [[] tag value comment column content]; reflexivity. Qed.

Lemma loop_step content parentAnchor parentWasMap child rest i children :
  loop content parentAnchor parentWasMap (child :: rest) i children
  = if yaml.isScalar child then
      if (List.length content <? i + 1)%nat then Panic "wrong length"
      else
        match rest with
        | [] => Panic indexOutOfRange
        | next :: rest' =>
            e <- entryNode ToLower Marshal ParseChildren parentAnchor
                           parentWasMap child next ;;
            loop content parentAnchor parentWasMap rest' (i + 2)%nat
                 (appendNode children e)
        end
    else if (List.length content =? 1)%nat then
      match content with
      | first :: _ => ParseChildren first parentAnchor true
      | [] => Panic indexOutOfRange
      end
    else
      y <- ParseNode child parentAnchor ;;
      loop content parentAnchor parentWasMap rest (i + 1)%nat
           (children ++ [y])%list.
Proof. reflexivity. Qed.

(** *** The builder panics or returns; it never returns an error *)

Lemma noErr_bind {A B : Type} (m : outcome A) (f : A -> outcome B) :
  noErr m -> (forall a, m = Ok a -> noErr (f a)) -> noErr (bind m f).
Proof.
  intros Hm Hf e. destruct m as [a|e'|p]; cbn.
  - apply Hf. reflexivity.
  - destruct (Hm e'). reflexivity.
  - discriminate.
Qed.

Lemma toYaml_noErr content : noErr (toYaml Marshal content).
Proof.
  intros e. unfold toYaml. destruct (Marshal content); discriminate.
Qed.

Lemma entryNode_noErr parentAnchor parentWasMap child next :
  (forall a b, noErr (ParseChildren next a b)) ->
  noErr (entryNode ToLower Marshal ParseChildren parentAnchor parentWasMap
                   child next).
Proof.
  intros Hnext. unfold entryNode.
  destruct (yaml.KindOf next); try (intros e; discriminate).
  - destruct (List.length (yaml.Content next) =? 0)%nat;
      [intros e; discriminate|].
    destruct (allScalars (yaml.Content next)).
    + apply noErr_bind; [apply toYaml_noErr|]. intros; intros e; discriminate.
    + apply noErr_bind; [apply Hnext|]. intros; intros e; discriminate.
  - apply noErr_bind; [apply Hnext|]. intros; intros e; discriminate.
Qed.

Lemma loop_noErr content parentAnchor parentWasMap :
  Forall nodeNoErr content ->
  forall rest, Forall nodeNoErr rest ->
  forall i children,
    noErr (loop content parentAnchor parentWasMap rest i children).
Proof.
  intros Hcontent rest.
  induction rest as [rest IH] using list_length_ind.
  intros Hrest i children.
  destruct rest as [|child rest]; [intros e; discriminate|].
  rewrite loop_step. inversion Hrest as [|? ? Hchild Hrest']; subst.
  destruct (yaml.isScalar child).
  - destruct (List.length content <? i + 1)%nat; [intros e; discriminate|].
    destruct rest as [|next rest]; [intros e; discriminate|].
    inversion Hrest' as [|? ? Hnext Hrest'']; subst.
    apply noErr_bind; [apply entryNode_noErr, Hnext|].
    intros e _. apply IH; [cbn; lia | assumption].
  - destruct (List.length content =? 1)%nat.
    + destruct content as [|first content]; [intros e; discriminate|].
      inversion Hcontent as [|? ? Hfirst _]; subst. apply Hfirst.
    + apply noErr_bind; [apply Hchild|].
      intros y _. apply IH; [cbn; lia | assumption].
Qed.

Lemma builder_noErr n : nodeNoErr n.
Proof.
  induction n as [n IH] using Node_content_ind.
  assert (Hpc : forall a b, noErr (ParseChildren n a b)).
  { intros a b. rewrite ParseChildren_eq. apply loop_noErr; assumption. }
  split; [exact Hpc|].
  intros a. rewrite ParseNode_eq.
  destruct (yaml.KindOf n); try (intros e; discriminate).
  - destruct (yaml.Content n) as [|first rest]; [intros e; discriminate|].
    inversion IH as [|? ? Hfirst _]; subst. apply Hfirst.
  - destruct (String.eqb a "");
      (apply noErr_bind; [apply Hpc|]; intros; intros e; discriminate).
Qed.

(** *** A key without a value *)

Lemma danglingKey_not_nil rest : danglingKey rest -> rest <> [].
Proof. destruct 1; discriminate. Qed.

Lemma loop_dangling content parentAnchor parentWasMap rest :
  danglingKey rest ->
  (List.length rest <= List.length content)%nat ->
  forall i children,
    aborted (loop content parentAnchor parentWasMap rest i children).
Proof.
  induction 1 as [k Hk | k v rest Hk Hrest IH | c rest Hc Hrest IH];
    intros Hlen i children; rewrite loop_step.
  - rewrite Hk. destruct (_ <? _)%nat; eexists; reflexivity.
  - rewrite Hk. destruct (_ <? _)%nat; [eexists; reflexivity|].
    destruct (entryNode _ _ _ _ _ _ _) as [e|e|p] eqn:E; cbn [bind].
    + apply IH. cbn in Hlen. lia.
    + exfalso. revert E. apply entryNode_noErr. apply builder_noErr.
    + eexists; reflexivity.
  - rewrite Hc.
    assert (Hne : (List.length content =? 1)%nat = false).
    { apply Nat.eqb_neq. apply danglingKey_not_nil in Hrest.
      destruct rest; [contradiction|]. cbn in Hlen. lia. }
    rewrite Hne.
    destruct (ParseNode c parentAnchor) as [y|e|p] eqn:E; cbn [bind].
    + apply IH. cbn in Hlen. lia.
    + exfalso. revert E. apply builder_noErr.
    + eexists; reflexivity.
Qed.

(** C9: when the content of a node holds a scalar in key position with
    no node after it, [ParseChildren] panics: it returns no children, so
    no node is built for that key and generation stops. *)
Theorem key_without_value_aborts n parentAnchor parentWasMap :
  danglingKey (yaml.Content n) ->
  aborted (ParseChildren n parentAnchor parentWasMap).
Proof.
  intros H. rewrite ParseChildren_eq. apply loop_dangling; auto.
Qed.

(** *** The nodes built for the keys *)

Lemma bind_Ok {A B : Type} (m : outcome A) (f : A -> outcome B) (b : B) :
  bind m f = Ok b -> exists a, m = Ok a /\ f a = Ok b.
Proof.
  destruct m as [a|e|p]; cbn; [|discriminate..]. intros H. exists a. auto.
Qed.

(** The node of a key carries the anchor and the flag of the call, and
    the column, text and comment of the key. *)
Lemma entryNode_fields parentAnchor parentWasMap child next y :
  entryNode ToLower Marshal ParseChildren parentAnchor parentWasMap child next
  = Ok (Some y) ->
  ParentAnchor y = parentAnchor /\ ParentWasMap y = parentWasMap
  /\ Indent y = yaml.Column child /\ Key y = yaml.Value child
  /\ Description y = yaml.HeadComment child /\ KindTag y = yaml.Tag next.
Proof.
  unfold entryNode. intros H.
  destruct (yaml.KindOf next); try discriminate.
  - destruct (List.length (yaml.Content next) =? 0)%nat;
      [|destruct (allScalars (yaml.Content next))].
    + injection H as <-. repeat split.
    + apply bind_Ok in H as (d & _ & H). injection H as <-. repeat split.
    + apply bind_Ok in H as (cs & _ & H). injection H as <-. repeat split.
  - apply bind_Ok in H as (cs & _ & H). injection H as <-. repeat split.
  - injection H as <-. repeat split.
Qed.

Lemma entryNode_hasCase parentAnchor parentWasMap child next e :
  hasCase next = true ->
  entryNode ToLower Marshal ParseChildren parentAnchor parentWasMap child next
  = Ok e ->
  e <> None.
Proof.
  unfold entryNode, hasCase. intros Hcase H.
  destruct (yaml.KindOf next); try discriminate.
  - destruct (List.length (yaml.Content next) =? 0)%nat;
      [|destruct (allScalars (yaml.Content next))].
    + injection H as <-. discriminate.
    + apply bind_Ok in H as (d & _ & H). injection H as <-. discriminate.
    + apply bind_Ok in H as (cs & _ & H). injection H as <-. discriminate.
  - apply bind_Ok in H as (cs & _ & H). injection H as <-. discriminate.
  - injection H as <-. discriminate.
Qed.

(** Over keys and values in turn, every node built carries the anchor
    and the flag of the call. *)
Lemma loop_keyed_flag content parentAnchor parentWasMap rest :
  keyed rest = true ->
  forall i children cs,
    Forall (fun y => ParentWasMap y = parentWasMap
                     /\ ParentAnchor y = parentAnchor) children ->
    loop content parentAnchor parentWasMap rest i children = Ok cs ->
    Forall (fun y => ParentWasMap y = parentWasMap
                     /\ ParentAnchor y = parentAnchor) cs.
Proof.
  induction rest as [rest IH] using list_length_ind.
  intros Hkeyed i children cs Hchildren H.
  destruct rest as [|k [|v rest]]; try discriminate.
  - injection H as <-. assumption.
  - cbn [keyed] in Hkeyed. apply andb_prop in Hkeyed as [Hk Hkeyed].
    rewrite loop_step, Hk in H.
    destruct (_ <? _)%nat; [discriminate|].
    apply bind_Ok in H as (e & He & H).
    apply (IH rest) in H; [assumption | cbn; lia | assumption |].
    destruct e as [y|]; cbn [appendNode]; [|assumption].
    apply Forall_app. split; [assumption|].
    constructor; [|constructor].
    apply entryNode_fields in He. intuition.
Qed.

Lemma ParseChildren_keyed_flag n parentAnchor parentWasMap cs :
  keyed (yaml.Content n) = true ->
  ParseChildren n parentAnchor parentWasMap = Ok cs ->
  Forall (fun y => ParentWasMap y = parentWasMap
                   /\ ParentAnchor y = parentAnchor) cs.
Proof.
  intros Hkeyed H. rewrite ParseChildren_eq in H.
  eapply loop_keyed_flag; eauto.
Qed.

(** C2, as the program has it: the unwrap applies to a content made of
    exactly one node that is not a scalar, as a sequence holding one
    mapping has; [ParseChildren] then returns what it returns on that
    single node, called with the flag set, whatever that node holds (a
    further content of one node is unwrapped again).  The nodes built
    for the keys of that single node carry the flag; the levels below
    are built without it: whatever the flag of a key's node, the nodes of
    the keys of its value are built with the flag cleared.  A top-level
    mapping is not unwrapped: the root takes the nodes of its keys, built
    without the flag. *)
Theorem single_child_unwrapped :
  (forall n first parentAnchor parentWasMap,
      yaml.Content n = [first] -> yaml.isScalar first = false ->
      ParseChildren n parentAnchor parentWasMap
      = ParseChildren first parentAnchor true)
  /\ (forall n first parentAnchor parentWasMap cs,
         yaml.Content n = [first] -> yaml.isScalar first = false ->
         keyed (yaml.Content first) = true ->
         ParseChildren n parentAnchor parentWasMap = Ok cs ->
         Forall (fun y => ParentWasMap y = true) cs)
  /\ (forall parentAnchor parentWasMap child next y,
         entryNode ToLower Marshal ParseChildren parentAnchor parentWasMap
                   child next = Ok (Some y) ->
         keyed (yaml.Content next) = true ->
         ParentWasMap y = parentWasMap
         /\ Forall (fun c => ParentWasMap c = false) (Children y))
  /\ (forall n root,
         yaml.KindOf n = yaml.MappingNode -> keyed (yaml.Content n) = true ->
         ParseNode n "" = Ok root ->
         ParseChildren n "" false = Ok (Children root)
         /\ Forall (fun y => ParentWasMap y = false) (Children root)).
Proof.
  assert (Hunwrap : forall n first parentAnchor parentWasMap,
             yaml.Content n = [first] -> yaml.isScalar first = false ->
             ParseChildren n parentAnchor parentWasMap
             = ParseChildren first parentAnchor true).
  { intros n first parentAnchor parentWasMap Hn Hfirst.
    rewrite ParseChildren_eq, Hn, loop_step, Hfirst. reflexivity. }
  assert (Hcleared : forall next anchor cs,
             keyed (yaml.Content next) = true ->
             ParseChildren next anchor false = Ok cs ->
             Forall (fun c => ParentWasMap c = false) cs).
  { intros next anchor cs Hkeyed Hcs.
    apply ParseChildren_keyed_flag in Hcs; [|assumption].
    eapply Forall_impl; [|exact Hcs]. cbn. intuition. }
  repeat apply conj.
  - exact Hunwrap.
  - intros n first parentAnchor parentWasMap cs Hn Hfirst Hkeyed H.
    rewrite (Hunwrap _ _ _ _ Hn Hfirst) in H.
    apply ParseChildren_keyed_flag in H; [|assumption].
    eapply Forall_impl; [|exact H]. cbn. intuition.
  - intros parentAnchor parentWasMap child next y H Hkeyed.
    split; [apply entryNode_fields in H; intuition|].
    unfold entryNode in H.
    destruct (yaml.KindOf next); try discriminate.
    + destruct (List.length (yaml.Content next) =? 0)%nat;
        [injection H as <-; constructor|].
      destruct (allScalars (yaml.Content next)).
      * apply bind_Ok in H as (d & _ & H). injection H as <-. constructor.
      * apply bind_Ok in H as (cs & Hcs & H). injection H as <-. cbn.
        eapply Hcleared; eassumption.
    + apply bind_Ok in H as (cs & Hcs & H). injection H as <-. cbn.
      eapply Hcleared; eassumption.
    + injection H as <-. constructor.
  - intros n root Hkind Hkeyed H.
    rewrite ParseNode_eq, Hkind in H. cbn in H.
    apply bind_Ok in H as (cs & Hcs & H). injection H as <-. cbn.
    split; [assumption|]. eapply Hcleared; eassumption.
Qed.

(** *** Sequences of maps *)

Lemma kindOfTag_not_array_map tag : kindOfTag tag <> "array<map>".
Proof.
  unfold kindOfTag.
  repeat (destruct (String.eqb _ _); [discriminate|]). discriminate.
Qed.

(** C4, as the program has it: for a key whose value is a sequence with
    an element that is not a scalar, the node built has no default and,
    as children, what [ParseChildren] returns on the sequence, the
    function that also parses the content of a mapping.  No kind is
    given to those children on account of the sequence: a node renders
    as [array<map>] exactly when the [type:] override of its own comment
    says so. *)
Theorem sequence_of_maps_children :
  (forall parentAnchor parentWasMap child next,
      yaml.KindOf next = yaml.SequenceNode ->
      allScalars (yaml.Content next) = false ->
      entryNode ToLower Marshal ParseChildren parentAnchor parentWasMap
                child next
      = (children <- ParseChildren
                       next
                       (parentAnchor ++ "-" ++ ToLower (yaml.Value child))
                       false ;;
         Ok (Some {| ParentAnchor := parentAnchor;
                     ParentWasMap := parentWasMap;
                     Indent := yaml.Column child;
                     Key := yaml.Value child;
                     Description := yaml.HeadComment child;
                     KindTag := yaml.Tag next;
                     Default := "";
                     Children := children |})))
  /\ (forall y,
         Kind y = "array<map>"
         <-> overrideOf "type: " (Description y) = Some "array<map>").
Proof.
  split.
  - intros parentAnchor parentWasMap child next Hkind Hall.
    unfold entryNode. rewrite Hkind, Hall.
    destruct (yaml.Content next) as [|c content]; [discriminate|].
    reflexivity.
  - intros y. rewrite Kind_override.
    destruct (overrideOf "type: " (Description y)) as [v|].
    + split; [intros ->; reflexivity | intros [= ->]; reflexivity].
    + split; [|discriminate].
      intros H. destruct (kindOfTag_not_array_map _ H).
Qed.

(** *** Children *)

(** Outside the unwrap, the loop only adds to the nodes it holds. *)
Lemma loop_grows content parentAnchor parentWasMap rest :
  List.length content <> 1%nat ->
  forall i children cs,
    loop content parentAnchor parentWasMap rest i children = Ok cs ->
    (List.length children <= List.length cs)%nat.
Proof.
  intros Hcontent.
  induction rest as [rest IH] using list_length_ind.
  intros i children cs H.
  destruct rest as [|child rest]; [injection H as <-; lia|].
  rewrite loop_step in H. destruct (yaml.isScalar child).
  - destruct (_ <? _)%nat; [discriminate|].
    destruct rest as [|next rest]; [discriminate|].
    apply bind_Ok in H as (e & _ & H).
    apply IH in H; [|cbn; lia].
    destruct e; cbn [appendNode] in H; [rewrite length_app in H|]; lia.
  - apply Nat.eqb_neq in Hcontent. rewrite Hcontent in H.
    apply bind_Ok in H as (y & _ & H).
    apply IH in H; [|cbn; lia]. rewrite length_app in H. lia.
Qed.

(** C6, as the program has it: a node has children only if its value was
    a mapping, or a sequence whose elements were not all scalars (for a
    node [ParseNode] builds: only if it was built from a mapping or a
    document).  Such a value need not give children; a mapping whose
    first key is a scalar with a scalar, a mapping or a sequence as its
    value does. *)
Theorem children_only_of_containers :
  (forall parentAnchor parentWasMap child next y,
      entryNode ToLower Marshal ParseChildren parentAnchor parentWasMap
                child next = Ok (Some y) ->
      Children y <> [] ->
      yaml.KindOf next = yaml.MappingNode
      \/ (yaml.KindOf next = yaml.SequenceNode
          /\ allScalars (yaml.Content next) = false))
  /\ (forall n parentAnchor y,
         ParseNode n parentAnchor = Ok y ->
         Children y <> [] ->
         yaml.KindOf n = yaml.MappingNode
         \/ yaml.KindOf n = yaml.DocumentNode)
  /\ (forall parentAnchor parentWasMap child next y k v rest,
         yaml.KindOf next = yaml.MappingNode ->
         yaml.Content next = k :: v :: rest ->
         yaml.isScalar k = true -> hasCase v = true ->
         entryNode ToLower Marshal ParseChildren parentAnchor parentWasMap
                   child next = Ok (Some y) ->
         Children y <> []).
Proof.
  repeat apply conj.
  - intros parentAnchor parentWasMap child next y H Hchildren.
    unfold entryNode in H.
    destruct (yaml.KindOf next); try discriminate; auto.
    + destruct (List.length (yaml.Content next) =? 0)%nat;
        [injection H as <-; contradiction|].
      destruct (allScalars (yaml.Content next)); [|auto].
      apply bind_Ok in H as (d & _ & H).
      injection H as <-. contradiction.
    + injection H as <-. contradiction.
  - intros n parentAnchor y H Hchildren.
    rewrite ParseNode_eq in H.
    destruct (yaml.KindOf n); auto; try discriminate;
      injection H as <-; contradiction.
  - intros parentAnchor parentWasMap child next y k v rest
           Hkind Hcontent Hk Hv H.
    unfold entryNode in H. rewrite Hkind in H.
    apply bind_Ok in H as (cs & Hcs & H). injection H as <-. cbn.
    rewrite ParseChildren_eq, Hcontent, loop_step, Hk in Hcs.
    cbn [List.length Nat.ltb Nat.leb Nat.add] in Hcs.
    apply bind_Ok in Hcs as (e & He & Hcs).
    apply entryNode_hasCase in He; [|assumption].
    destruct e as [y0|]; [|contradiction].
    apply loop_grows in Hcs; [|cbn; lia].
    cbn in Hcs. destruct cs; [cbn in Hcs; lia | discriminate].
Qed.

End Builder.

(** ** The renderer *)

Lemma YAMLNode_children_ind (P : YAMLNode -> Prop) :
  (forall y, Forall P (Children y) -> P y) -> forall y, P y.
Proof.
  intros H. fix IH 1. intros [indent anchor flag key default description tag cs].
  apply H. cbn.
  induction cs as [|c cs IHc]; constructor; [apply IH | exact IHc].
Qed.

Lemma forEach_app {A B : Type} (f : A -> outcome B) (l1 l2 : list A) :
  forEach f (l1 ++ l2)
  = (bs1 <- forEach f l1 ;; bs2 <- forEach f l2 ;; Ok (bs1 ++ bs2)%list).
Proof.
  induction l1 as [|a l1 IH]; cbn [forEach List.app].
  - destruct (forEach f l2); reflexivity.
  - destruct (f a); cbn [bind]; [|reflexivity..]. rewrite IH.
    destruct (forEach f l1); cbn [bind]; [|reflexivity..].
    destruct (forEach f l2); reflexivity.
Qed.

Lemma forEach_Ok {A B : Type} (f : A -> outcome B) (l : list A) :
  forall bs, forEach f l = Ok bs -> Forall2 (fun a b => f a = Ok b) l bs.
Proof.
  induction l as [|a l IH]; cbn [forEach]; intros bs H.
  - injection H as <-. constructor.
  - destruct (f a) as [b| |] eqn:Ea; cbn [bind] in H; try discriminate.
    destruct (forEach f l) as [bs'| |]; cbn [bind] in H; try discriminate.
    injection H as <-. constructor; auto.
Qed.

Lemma preorder_cons c nodes :
  preorder (c :: nodes) = ((c :: preorder (Children c)) ++ preorder nodes)%list.
Proof. destruct c. reflexivity. Qed.

Lemma preorder_app l1 l2 :
  preorder (l1 ++ l2) = (preorder l1 ++ preorder l2)%list.
Proof. apply flat_map_app. Qed.

Lemma descendants_eq y : descendants y = preorder (Children y).
Proof. destruct y. reflexivity. Qed.

Lemma nodeSize_eq y : nodeSize y = S (list_sum (map nodeSize (Children y))).
Proof. destruct y. reflexivity. Qed.

Lemma nodeSize_in c l :
  In c l -> (nodeSize c <= list_sum (map nodeSize l))%nat.
Proof.
  induction l as [|d l IH]; [intros []|].
  change (list_sum (map nodeSize (d :: l)))
    with (nodeSize d + list_sum (map nodeSize l))%nat.
  intros [-> | H]; [lia | apply IH in H; lia].
Qed.

(** A node is larger than the nodes below it. *)
Lemma descendants_size y : forall x,
  In x (descendants y) -> (nodeSize x < nodeSize y)%nat.
Proof.
  induction y as [y IH] using YAMLNode_children_ind. intros x Hx.
  rewrite descendants_eq in Hx. unfold preorder in Hx.
  apply in_flat_map in Hx as (c & Hc & Hx).
  rewrite (nodeSize_eq y). pose proof (nodeSize_in c _ Hc) as Hsize.
  destruct Hx as [<- | Hx]; [lia|].
  rewrite Forall_forall in IH. apply (IH c Hc) in Hx. lia.
Qed.

Section Renderer.

Variable ToLower : string -> string.

Abbreviation Execute := (Execute ToLower).
Abbreviation GenChildren := (GenChildren ToLower).

Lemma GenChildren_eq node :
  GenChildren node = genLoop ToLower GenChildren (Children node) [].
Proof. destruct node. reflexivity. Qed.

Lemma genLoop_preorder cs :
  Forall (fun c => GenChildren c = forEach Execute (descendants c)) cs ->
  forall out,
    genLoop ToLower GenChildren cs out
    = (fragments <- forEach Execute (preorder cs) ;;
       Ok (out ++ fragments)%list).
Proof.
  induction 1 as [|c cs Hc _ IH]; intros out.
  - cbn. rewrite app_nil_r. reflexivity.
  - rewrite preorder_cons, <- descendants_eq. cbn [genLoop List.app forEach].
    destruct (Execute c) as [nodeOut|e|p]; cbn [bind]; [|reflexivity..].
    rewrite forEach_app, Hc.
    destruct (forEach Execute (descendants c)) as [childOut|e|p];
      cbn [bind]; [|reflexivity..].
    rewrite IH.
    destruct (forEach Execute (preorder cs)) as [fragments|e|p];
      cbn [bind]; [|reflexivity..].
    rewrite <- !app_assoc. reflexivity.
Qed.

Lemma GenChildren_preorder node :
  GenChildren node = forEach Execute (descendants node).
Proof.
  induction node as [node IH] using YAMLNode_children_ind.
  rewrite GenChildren_eq, genLoop_preorder by assumption.
  rewrite descendants_eq.
  destruct (forEach Execute (preorder (Children node))); reflexivity.
Qed.

End Renderer.

Section Pipeline.

Variable ToLower : string -> string.
Variable Marshal : list yaml.Node -> outcome string.
Variable Unmarshal : string -> outcome yaml.Node.

Abbreviation Execute := (Execute ToLower).

(** C8: the fragments are those of the nodes below the root, one each,
    every node followed by the nodes below it and then by its next
    sibling; the root is not among them; [Gen] joins them with a blank
    line.  Hence, of two siblings, the fragment of the first comes
    before that of the second and before those of the nodes below the
    second.  ([Execute] failing on a node, [Gen] returns that error.) *)
Theorem fragments_in_preorder (yamlStr : string) (root : YAMLNode) :
  Parse ToLower Marshal Unmarshal yamlStr = Ok root ->
  Gen ToLower Marshal Unmarshal yamlStr
  = (fragments <- forEach Execute (preorder (Children root)) ;;
     Ok (Join fragments (nl ++ nl)))
  /\ (forall fragments,
         forEach Execute (preorder (Children root)) = Ok fragments ->
         Forall2 (fun y fragment => Execute y = Ok fragment)
                 (preorder (Children root)) fragments)
  /\ ~ In root (preorder (Children root))
  /\ (forall before k1 between k2 after,
         Children root = (before ++ k1 :: between ++ k2 :: after)%list ->
         preorder (Children root)
         = (preorder before
              ++ k1 :: (preorder (Children k1) ++ preorder between)
              ++ k2 :: preorder (Children k2) ++ preorder after)%list).
Proof.
  intros Hparse. repeat apply conj.
  - unfold Gen. rewrite Hparse.
    rewrite GenChildren_preorder, descendants_eq. reflexivity.
  - apply forEach_Ok.
  - rewrite <- descendants_eq. intros H.
    apply descendants_size in H. lia.
  - intros before k1 between k2 after ->.
    rewrite preorder_app, preorder_cons, preorder_app, preorder_cons.
    cbn [List.app]. rewrite <- !app_assoc. reflexivity.
Qed.

(** C10, as the program has it: on a document whose value is a scalar
    (a text that is one scalar, or the text [---], whose value is the null
    scalar) [Gen] panics: it returns neither a text nor an error.  On the
    empty text, where the parser leaves the node unfilled, [Gen] does not
    panic: it returns the empty text. *)
Theorem gen_panics_on_scalar_document (yamlStr : string) (n : yaml.Node) :
  Unmarshal yamlStr = Ok n ->
  (yaml.KindOf n = yaml.DocumentNode ->
   (exists first rest,
       yaml.Content n = first :: rest
       /\ yaml.KindOf first = yaml.ScalarNode) ->
   Gen ToLower Marshal Unmarshal yamlStr
   = Panic "scalars should not be parsed here")
  /\ (yaml.KindOf n = yaml.ZeroKind ->
      Gen ToLower Marshal Unmarshal yamlStr = Ok "").
Proof.
  intros Hparsed. unfold Gen, Parse. rewrite Hparsed, ParseNode_eq.
  split.
  - intros Hkind (first & rest & Hcontent & Hfirst).
    rewrite Hkind, Hcontent, ParseNode_eq, Hfirst. reflexivity.
  - intros Hkind. rewrite Hkind. reflexivity.
Qed.

End Pipeline.

(** ** The properties on the sample documents *)

Lemma key_without_value_aborts_witness :
  aborted (Sample.ParseChildren Sample.danglingMapping "" false)
  /\ Sample.ParseChildren Sample.danglingMapping "" false
     = Panic indexOutOfRange.
Proof.
  split; [|reflexivity].
  apply key_without_value_aborts. cbn.
  apply dangling_pair; [reflexivity|]. apply dangling_last. reflexivity.
Defined.

Lemma single_child_unwrapped_witness :
  Sample.ParseChildren Sample.portsValue "-ports" false
  = Sample.ParseChildren
      (Sample.mapping 5 [Sample.key "name" "" 5;
                         Sample.scalar "!!str" "http" "" 11])
      "-ports" true
  /\ Forall (fun y => ParentWasMap y = true) [Sample.name]
  /\ (ParentWasMap Sample.http = true
      /\ Forall (fun c => ParentWasMap c = false) (Children Sample.http))
  /\ Forall (fun y => ParentWasMap y = false)
            (Children (Sample.rootNode [Sample.ports])).
Proof.
  pose proof (single_child_unwrapped Sample.ToLower Sample.Marshal)
    as (Hunwrap & Hflag & Hbelow & Hroot).
  split; [|split; [|split]].
  - apply Hunwrap; reflexivity.
  - apply (Hflag Sample.portsValue
                 (Sample.mapping 5 [Sample.key "name" "" 5;
                                    Sample.scalar "!!str" "http" "" 11])
                 "-ports" false); reflexivity.
  - apply (Hbelow "-ports" true (Sample.key "http" "" 5) Sample.httpValue
                  Sample.http); reflexivity.
  - apply (Hroot (Sample.mapping 1 [Sample.key "ports" "" 1; Sample.portsValue]));
      reflexivity.
Defined.

(** C2 as stated fails: the top-level mapping of [oneEntryDoc] has exactly
    one entry, and the root has a node for it, built without the flag and
    rendered as a fragment; under [a] the sequence and then the sequence
    it holds are both passed over; and in [deepDoc] the node [port], below
    the key [http] of the unwrapped element, is built without the flag. *)
Lemma one_entry_mapping_not_unwrapped :
  Sample.ParseNode Sample.oneEntryDoc "" = Ok (Sample.rootNode [Sample.global])
  /\ ParentWasMap Sample.global = false
  /\ Sample.Gen Sample.oneEntryDoc
     = Ok "- `global` ((#v-global)) (`string: x`) - The only key."
  /\ Sample.ParseNode Sample.nestedSeqDoc "" = Ok (Sample.rootNode [Sample.a])
  /\ Children Sample.a = [Sample.b]
  /\ Sample.ParseNode Sample.deepDoc "" = Ok (Sample.rootNode [Sample.deepPorts])
  /\ Children Sample.deepPorts = [Sample.http]
  /\ ParentWasMap Sample.http = true
  /\ Children Sample.http = [Sample.port]
  /\ ParentWasMap Sample.port = false.
Proof.
  repeat split.
Qed.

Lemma sequence_of_maps_children_witness :
  entryNode Sample.ToLower Sample.Marshal Sample.ParseChildren "" false
            (Sample.key "ports" "" 1) Sample.portsValue
  = Ok (Some Sample.ports)
  /\ (Kind (leaf 1 true "" "# type: array<map>" "!!seq") = "array<map>"
      <-> overrideOf "type: " "# type: array<map>" = Some "array<map>").
Proof.
  split.
  - apply (proj1 (sequence_of_maps_children Sample.ToLower Sample.Marshal)
                 "" false (Sample.key "ports" "" 1) Sample.portsValue);
      reflexivity.
  - apply (proj2 (sequence_of_maps_children Sample.ToLower Sample.Marshal)
                 (leaf 1 true "" "# type: array<map>" "!!seq")).
Defined.

(** C4 as stated fails: the value of [ports] is a sequence holding a
    mapping, and its child [name], which has no [type:] override, renders
    as [string]. *)
Lemma child_of_sequence_keeps_its_kind :
  Sample.ParseNode Sample.seqOfMapDoc "" = Ok (Sample.rootNode [Sample.ports])
  /\ Children Sample.ports = [Sample.name]
  /\ overrideOf "type: " (Description Sample.name) = None
  /\ Kind Sample.name = "string"
  /\ Kind Sample.name <> "array<map>".
Proof.
  repeat split. vm_compute. discriminate.
Qed.

Lemma children_only_of_containers_witness :
  (yaml.KindOf Sample.portsValue = yaml.MappingNode
   \/ (yaml.KindOf Sample.portsValue = yaml.SequenceNode
       /\ allScalars (yaml.Content Sample.portsValue) = false))
  /\ (yaml.KindOf Sample.plainMappingDoc = yaml.MappingNode
      \/ yaml.KindOf Sample.plainMappingDoc = yaml.DocumentNode)
  /\ Children Sample.server <> [].
Proof.
  pose proof (children_only_of_containers Sample.ToLower Sample.Marshal)
    as (Hentry & Hnode & Hmapping).
  repeat apply conj.
  - apply (Hentry "" false (Sample.key "ports" "" 1) Sample.portsValue
                  Sample.ports); [reflexivity | discriminate].
  - apply (Hnode Sample.plainMappingDoc "" (Sample.rootNode [Sample.server]));
      [reflexivity | discriminate].
  - apply (Hmapping "" false (Sample.key "server" "" 1)
                    (Sample.mapping 3
                       [Sample.key "replicas" ("# First." ++ nl ++ "# Second.") 3;
                        Sample.scalar "!!int" "3" "" 13])
                    Sample.server
                    (Sample.key "replicas" ("# First." ++ nl ++ "# Second.") 3)
                    (Sample.scalar "!!int" "3" "" 13) []);
      reflexivity.
Defined.

(** C6 as stated fails: the value of [resources] is a mapping, an empty
    one, and its node has no children. *)
Lemma empty_mapping_has_no_children :
  Sample.ParseNode Sample.emptyMapDoc ""
  = Ok (Sample.rootNode [Sample.resources])
  /\ entryNode Sample.ToLower Sample.Marshal Sample.ParseChildren "" false
               (Sample.key "resources" "" 1) (Sample.mapping 12 [])
     = Ok (Some Sample.resources)
  /\ yaml.KindOf (Sample.mapping 12 []) = yaml.MappingNode
  /\ Children Sample.resources = [].
Proof.
  repeat split.
Qed.

Lemma fragments_in_preorder_witness :
  Sample.Gen Sample.plainMappingDoc
  = (fragments <- forEach (Execute Sample.ToLower)
                          [Sample.server; Sample.replicas] ;;
     Ok (Join fragments (nl ++ nl)))
  /\ ~ In (Sample.rootNode [Sample.server]) [Sample.server; Sample.replicas].
Proof.
  pose proof (fragments_in_preorder
                Sample.ToLower Sample.Marshal
                (Sample.Unmarshal Sample.plainMappingDoc) ""
                (Sample.rootNode [Sample.server]) eq_refl)
    as (Hgen & _ & Hroot & _).
  split; [exact Hgen | exact Hroot].
Defined.

Lemma gen_panics_on_scalar_document_witness :
  Sample.Gen Sample.scalarDoc = Panic "scalars should not be parsed here"
  /\ Sample.Gen Sample.nullDoc = Panic "scalars should not be parsed here"
  /\ Sample.Gen Sample.unfilled = Ok "".
Proof.
  repeat apply conj.
  - apply (proj1 (gen_panics_on_scalar_document
                    Sample.ToLower Sample.Marshal
                    (Sample.Unmarshal Sample.scalarDoc) "" Sample.scalarDoc
                    eq_refl)); [reflexivity|].
    exists (Sample.scalar "!!str" "text" "" 1), []. split; reflexivity.
  - apply (proj1 (gen_panics_on_scalar_document
                    Sample.ToLower Sample.Marshal
                    (Sample.Unmarshal Sample.nullDoc) "" Sample.nullDoc
                    eq_refl)); [reflexivity|].
    exists (Sample.scalar "!!null" "" "" 1), []. split; reflexivity.
  - apply (proj2 (gen_panics_on_scalar_document
                    Sample.ToLower Sample.Marshal
                    (Sample.Unmarshal Sample.unfilled) "" Sample.unfilled
                    eq_refl)). reflexivity.
Defined.

(** C10 as stated fails for the empty document: on the empty text the
    parser leaves the node unfilled, and [Gen] returns the empty text
    instead of panicking. *)
Lemma empty_text_gives_empty_output :
  Sample.Gen Sample.unfilled = Ok "" /\ ~ aborted (Sample.Gen Sample.unfilled).
Proof.
  split; [reflexivity|]. intros [p Hp]. discriminate Hp.
Qed.

(** * Further properties of the generator *)

(** ** When a fragment is produced *)

Lemma descIndent_of_leadingCount (y : YAMLNode) :
  (0 <= leadingCount y)%Z -> (0 <= descIndent y)%Z.
Proof.
  unfold leadingCount, descIndent. destruct (ParentWasMap y); lia.
Qed.

Lemma FormattedDescription_Ok (y : YAMLNode) :
  (0 <= descIndent y)%Z -> exists d, FormattedDescription y = Ok d.
Proof.
  intros H. unfold FormattedDescription.
  rewrite (descLoop_pieces_first y _ H). eexists. reflexivity.
Qed.

Section Fragments.

Variable ToLower : string -> string.

Lemma Execute_fragment (y : YAMLNode) :
  (0 <= leadingCount y)%Z ->
  exists d,
    FormattedDescription y = Ok d
    /\ Execute ToLower y
       = Ok (spaces (Z.to_nat (leadingCount y))
               ++ "- `" ++ Key y ++ "` ((#v" ++ Anchor ToLower y ++ "))"
               ++ kindGroup y
               ++ (if String.eqb d "" then "" else " - " ++ d)).
Proof.
  unfold Execute, LeadingIndent, Repeat_space. fold (leadingCount y).
  intros H.
  destruct (FormattedDescription_Ok y (descIndent_of_leadingCount y H))
    as [d Hd].
  exists d. split; [assumption|].
  apply Z.ltb_ge in H. rewrite H, Hd. cbn [safeCall bind].
  destruct (String.eqb d ""); reflexivity.
Qed.

(** X1: the template fails on a node exactly when the count of leading
    spaces is negative ([Indent < 1], or [Indent < 3] with the flag set);
    the failure is an error carrying the panic of [strings.Repeat], never a
    panic.  Otherwise the fragment is the leading spaces, the key, the
    anchor, the kind group and, when it is not empty, the description. *)
Theorem execute_fails_on_negative_indent (y : YAMLNode) :
  ((0 <= leadingCount y)%Z ->
   exists d,
     FormattedDescription y = Ok d
     /\ Execute ToLower y
        = Ok (spaces (Z.to_nat (leadingCount y))
                ++ "- `" ++ Key y ++ "` ((#v" ++ Anchor ToLower y ++ "))"
                ++ kindGroup y
                ++ (if String.eqb d "" then "" else " - " ++ d)))
  /\ ((leadingCount y < 0)%Z ->
      Execute ToLower y = Err "strings: negative Repeat count").
Proof.
  split; [apply Execute_fragment|].
  unfold Execute, LeadingIndent, Repeat_space. fold (leadingCount y).
  intros H. apply Z.ltb_lt in H. rewrite H. reflexivity.
Qed.

Lemma Execute_no_panic (y : YAMLNode) p : Execute ToLower y <> Panic p.
Proof.
  unfold Execute.
  destruct (LeadingIndent y); cbn [safeCall bind]; try discriminate.
  destruct (FormattedDescription y); cbn [safeCall bind]; discriminate.
Qed.

End Fragments.

Lemma execute_fails_on_negative_indent_witness :
  (exists d,
      FormattedDescription Sample.replicas = Ok d
      /\ Execute Sample.ToLower Sample.replicas
         = Ok ("  - `replicas` ((#v-server-replicas)) (`integer: 3`)"
                 ++ (if String.eqb d "" then "" else " - " ++ d)))
  /\ Execute Sample.ToLower shallowB = Err "strings: negative Repeat count".
Proof.
  split.
  - apply (proj1 (execute_fails_on_negative_indent Sample.ToLower
                                                   Sample.replicas)).
    vm_compute. discriminate.
  - apply (proj2 (execute_fails_on_negative_indent Sample.ToLower shallowB)).
    reflexivity.
Defined.

(** ** What [Gen] returns *)

Lemma forEach_Err {A B : Type} (f : A -> outcome B) (l : list A) e :
  forEach f l = Err e -> exists a, In a l /\ f a = Err e.
Proof.
  induction l as [|a l IH]; cbn [forEach]; [discriminate|].
  destruct (f a) as [b|e'|p] eqn:Ea; cbn [bind].
  - destruct (forEach f l) as [bs|e'|p]; cbn [bind]; try discriminate.
    intros [= ->]. destruct IH as (a' & Hin & Ha'); [reflexivity|].
    exists a'. split; [right|]; assumption.
  - intros [= ->]. exists a. split; [left; reflexivity | assumption].
  - discriminate.
Qed.

Lemma forEach_no_panic {A B : Type} (f : A -> outcome B) (l : list A) :
  (forall a p, f a <> Panic p) -> forall p, forEach f l <> Panic p.
Proof.
  intros Hf. induction l as [|a l IH]; intros p; cbn [forEach]; [discriminate|].
  destruct (f a) as [b|e|p'] eqn:Ea; cbn [bind]; try discriminate.
  - destruct (forEach f l) as [bs|e|p'] eqn:El; cbn [bind]; try discriminate.
    destruct (IH p'). reflexivity.
  - destruct (Hf a p'). assumption.
Qed.

Section Outcomes.

Variable ToLower : string -> string.
Variable Marshal : list yaml.Node -> outcome string.
Variable Unmarshal : string -> outcome yaml.Node.

(** X2: the errors [Gen] returns are those of the parser and of the
    template: the error of [yaml.Unmarshal] as it is, or that of
    [Execute] on a node below the root.  A panic of [Gen] is one of the
    parser or of the tree builder; rendering never panics. *)
Theorem gen_error_kinds (yamlStr : string) :
  (forall e,
      Gen ToLower Marshal Unmarshal yamlStr = Err e ->
      Unmarshal yamlStr = Err e
      \/ exists root y,
          Parse ToLower Marshal Unmarshal yamlStr = Ok root
          /\ In y (preorder (Children root))
          /\ Execute ToLower y = Err e)
  /\ (forall p,
         Gen ToLower Marshal Unmarshal yamlStr = Panic p ->
         Unmarshal yamlStr = Panic p
         \/ exists n,
             Unmarshal yamlStr = Ok n
             /\ ParseNode ToLower Marshal n "" = Panic p).
Proof.
  unfold Gen, Parse. destruct (Unmarshal yamlStr) as [n|e0|p0].
  - destruct (ParseNode ToLower Marshal n "") as [root|e0|p0] eqn:Eroot.
    + rewrite GenChildren_preorder, descendants_eq. split.
      * intros e He. right. exists root.
        destruct (forEach (Execute ToLower) (preorder (Children root)))
          as [fragments|e'|p'] eqn:Efr; cbn [bind] in He; try discriminate.
        injection He as ->.
        apply forEach_Err in Efr as (y & Hy & Hexec). exists y. auto.
      * intros p Hp.
        destruct (forEach (Execute ToLower) (preorder (Children root)))
          as [fragments|e'|p'] eqn:Efr; cbn [bind] in Hp; try discriminate.
        destruct (forEach_no_panic (Execute ToLower) _
                                   (Execute_no_panic ToLower) p' Efr).
    + destruct (proj2 (builder_noErr ToLower Marshal n) "" e0 Eroot).
    + split; [discriminate|]. intros p [= ->]. right. exists n. auto.
  - split; [|discriminate]. intros e [= ->]. left. reflexivity.
  - split; [discriminate|]. intros p [= ->]. left. reflexivity.
Qed.

(** X3: when the value of the document is a sequence or an alias, or when
    the parser leaves the node unfilled, [Gen] returns the empty text
    without an error: nothing is documented. *)
Theorem gen_empty_without_mapping (yamlStr : string) (n : yaml.Node) :
  Unmarshal yamlStr = Ok n ->
  (withoutCase n = true
   \/ (yaml.KindOf n = yaml.DocumentNode
       /\ exists first rest,
           yaml.Content n = first :: rest /\ withoutCase first = true)) ->
  Gen ToLower Marshal Unmarshal yamlStr = Ok "".
Proof.
  intros Hparsed Hshape. unfold Gen, Parse. rewrite Hparsed.
  assert (Hzero : forall v a, withoutCase v = true ->
                              ParseNode ToLower Marshal v a = Ok zeroYAMLNode).
  { intros v a Hv. rewrite ParseNode_eq. unfold withoutCase in Hv.
    destruct (yaml.KindOf v); try discriminate; reflexivity. }
  destruct Hshape as [Hn | (Hdoc & first & rest & Hcontent & Hfirst)].
  - rewrite (Hzero n "" Hn). reflexivity.
  - rewrite ParseNode_eq, Hdoc, Hcontent, (Hzero first "" Hfirst).
    reflexivity.
Qed.

End Outcomes.

Lemma gen_error_kinds_witness :
  (Sample.Unmarshal shallowFlowDoc "" = Err "strings: negative Repeat count"
   \/ exists root y,
       Parse Sample.ToLower Sample.Marshal (Sample.Unmarshal shallowFlowDoc) ""
       = Ok root
       /\ In y (preorder (Children root))
       /\ Execute Sample.ToLower y = Err "strings: negative Repeat count")
  /\ (Sample.Unmarshal Sample.scalarDoc ""
      = Panic "scalars should not be parsed here"
      \/ exists n,
          Sample.Unmarshal Sample.scalarDoc "" = Ok n
          /\ ParseNode Sample.ToLower Sample.Marshal n ""
             = Panic "scalars should not be parsed here").
Proof.
  split.
  - apply (proj1 (gen_error_kinds Sample.ToLower Sample.Marshal
                                  (Sample.Unmarshal shallowFlowDoc) "")).
    reflexivity.
  - apply (proj2 (gen_error_kinds Sample.ToLower Sample.Marshal
                                  (Sample.Unmarshal Sample.scalarDoc) "")).
    reflexivity.
Defined.

Lemma gen_empty_without_mapping_witness :
  Sample.Gen sequenceDoc = Ok ""
  /\ Sample.Gen (yaml.mkNode yaml.ZeroKind "" "" "" 0 []) = Ok "".
Proof.
  split.
  - apply (gen_empty_without_mapping
             Sample.ToLower Sample.Marshal (Sample.Unmarshal sequenceDoc)
             "" sequenceDoc); [reflexivity|].
    right. split; [reflexivity|].
    exists (Sample.sequence 1 [Sample.scalar "!!str" "x" "" 3]), [].
    split; reflexivity.
  - apply (gen_empty_without_mapping
             Sample.ToLower Sample.Marshal
             (Sample.Unmarshal (yaml.mkNode yaml.ZeroKind "" "" "" 0 []))
             "" (yaml.mkNode yaml.ZeroKind "" "" "" 0 [])); [reflexivity|].
    left. reflexivity.
Defined.

(** ** The nodes of a mapping *)

Section Entries.

Variable ToLower : string -> string.
Variable Marshal : list yaml.Node -> outcome string.

Abbreviation ParseChildren := (ParseChildren ToLower Marshal).
Abbreviation ParseNode := (ParseNode ToLower Marshal).
Abbreviation loop content parentAnchor parentWasMap :=
  (childrenLoop ToLower Marshal ParseChildren ParseNode content
                parentAnchor parentWasMap).

Lemma entryNode_withoutCase parentAnchor parentWasMap child next :
  hasCase next = false ->
  entryNode ToLower Marshal ParseChildren parentAnchor parentWasMap child next
  = Ok None.
Proof.
  unfold entryNode, hasCase.
  destruct (yaml.KindOf next); try discriminate; reflexivity.
Qed.

Lemma entryNode_documents parentAnchor parentWasMap child next e :
  hasCase next = true ->
  entryNode ToLower Marshal ParseChildren parentAnchor parentWasMap child next
  = Ok e ->
  exists y, e = Some y /\ documents parentAnchor parentWasMap (child, next) y.
Proof.
  intros Hcase He. pose proof (entryNode_hasCase _ _ _ _ _ _ _ Hcase He) as Hne.
  destruct e as [y|]; [|contradiction]. exists y. split; [reflexivity|].
  apply entryNode_fields in He. unfold documents. cbn [fst snd]. intuition.
Qed.

Lemma loop_entries content parentAnchor parentWasMap rest :
  keyed rest = true ->
  forall done i children cs,
    Forall2 (documents parentAnchor parentWasMap) done children ->
    loop content parentAnchor parentWasMap rest i children = Ok cs ->
    Forall2 (documents parentAnchor parentWasMap) (done ++ entries rest) cs.
Proof.
  induction rest as [rest IH] using list_length_ind.
  intros Hkeyed done i children cs Hdone H.
  destruct rest as [|k [|v rest]]; try discriminate.
  - injection H as <-. cbn [entries]. rewrite app_nil_r. assumption.
  - cbn [keyed] in Hkeyed. apply andb_prop in Hkeyed as [Hk Hkeyed].
    rewrite loop_step, Hk in H.
    destruct (_ <? _)%nat; [discriminate|].
    apply bind_Ok in H as (e & He & H). cbn [entries].
    destruct (hasCase v) eqn:Hv.
    + apply entryNode_documents in He as (y & -> & Hy); [|assumption].
      cbn [appendNode] in H.
      apply (IH rest ltac:(cbn; lia) Hkeyed (done ++ [(k, v)])%list) in H.
      * rewrite <- app_assoc in H. exact H.
      * apply Forall2_app; [assumption|]. constructor; [assumption|constructor].
    + rewrite entryNode_withoutCase in He by assumption.
      injection He as <-. cbn [appendNode] in H.
      apply (IH rest ltac:(cbn; lia) Hkeyed done) in H; assumption.
Qed.

(** X4: over a content of keys and values in turn, the children returned
    are, in the order of the source, one node for each key whose value is
    a scalar, a mapping or a sequence; the node has the text, the column
    and the head comment of its key, the tag of its value, and the anchor
    and the flag of the call.  A key whose value is of another kind (an
    alias) gets no node. *)
Theorem keyed_children_in_order n parentAnchor parentWasMap cs :
  keyed (yaml.Content n) = true ->
  ParseChildren n parentAnchor parentWasMap = Ok cs ->
  Forall2 (documents parentAnchor parentWasMap) (entries (yaml.Content n)) cs.
Proof.
  intros Hkeyed H. rewrite ParseChildren_eq in H.
  apply (loop_entries _ _ _ _ Hkeyed [] _ _ _ (Forall2_nil _) H).
Qed.

End Entries.

Lemma keyed_children_in_order_witness :
  Forall2 (documents "" false)
          [(Sample.key "base" "" 1, Sample.scalar "!!int" "1" "" 10);
           (Sample.key "last" "# Last." 1, Sample.scalar "!!str" "x" "" 7)]
          [keyLeaf "base" 1 "1" "" "!!int"; keyLeaf "last" 1 "x" "# Last." "!!str"].
Proof.
  apply (keyed_children_in_order Sample.ToLower Sample.Marshal aliasDoc "" false);
    reflexivity.
Defined.

(** ** Plain documents *)

Lemma plainValue_eq (v : yaml.Node) :
  plainValue v
  = match yaml.KindOf v with
    | yaml.ScalarNode => true
    | yaml.SequenceNode => allScalars (yaml.Content v)
    | yaml.MappingNode => plainPairs plainValue (yaml.Content v)
    | _ => false
    end.
Proof. destruct v. reflexivity. Qed.

Lemma wellBuilt_eq ToLower anchor y :
  wellBuilt ToLower anchor y
  = String.eqb (ParentAnchor y) anchor
    && negb (ParentWasMap y)
    && (1 <=? Indent y)%Z
    && forallb (wellBuilt ToLower (Anchor ToLower y)) (Children y).
Proof. destruct y. reflexivity. Qed.

Lemma forallb_snoc {A : Type} (f : A -> bool) (l : list A) (a : A) :
  forallb f l = true -> f a = true -> forallb f (l ++ [a]) = true.
Proof.
  intros Hl Ha. rewrite forallb_app, Hl. cbn. rewrite Ha. reflexivity.
Qed.

Section PlainBuilder.

Variable ToLower : string -> string.
Variable Marshal : list yaml.Node -> outcome string.
Hypothesis Marshal_scalars : marshalsScalars Marshal.

Abbreviation ParseChildren := (ParseChildren ToLower Marshal).
Abbreviation ParseNode := (ParseNode ToLower Marshal).
Abbreviation loop content parentAnchor parentWasMap :=
  (childrenLoop ToLower Marshal ParseChildren ParseNode content
                parentAnchor parentWasMap).

Abbreviation buildsWell := (buildsWell ToLower Marshal).

Lemma entryNode_plain parentAnchor child next :
  buildsWell next ->
  yaml.isScalar child = true -> (1 <= yaml.Column child)%Z ->
  plainValue next = true ->
  exists y,
    entryNode ToLower Marshal ParseChildren parentAnchor false child next
    = Ok (Some y)
    /\ wellBuilt ToLower parentAnchor y = true.
Proof.
  intros Hnext Hchild Hcolumn Hplain. unfold entryNode.
  apply Z.leb_le in Hcolumn.
  rewrite plainValue_eq in Hplain.
  destruct (yaml.KindOf next) eqn:Hkind; try discriminate.
  - destruct (List.length (yaml.Content next) =? 0)%nat.
    + eexists. split; [reflexivity|]. rewrite wellBuilt_eq. cbn.
      rewrite String.eqb_refl, Hcolumn. reflexivity.
    + rewrite Hplain. unfold toYaml.
      destruct (Marshal_scalars _ Hplain) as [out ->]. cbn [bind].
      eexists. split; [reflexivity|]. rewrite wellBuilt_eq. cbn.
      rewrite String.eqb_refl, Hcolumn. reflexivity.
  - destruct (Hnext Hkind ltac:(rewrite plainValue_eq, Hkind; exact Hplain)
                    (parentAnchor ++ "-" ++ ToLower (yaml.Value child)))
      as (cs & Hcs & Hwell).
    unfold Anchor. cbn [ParentAnchor Key]. rewrite Hcs. cbn [bind].
    eexists. split; [reflexivity|]. rewrite wellBuilt_eq. cbn.
    rewrite String.eqb_refl, Hcolumn. exact Hwell.
  - eexists. split; [reflexivity|]. rewrite wellBuilt_eq. cbn.
    rewrite String.eqb_refl, Hcolumn. reflexivity.
Qed.

Lemma loop_plain content parentAnchor rest :
  Forall buildsWell rest ->
  plainPairs plainValue rest = true ->
  forall i children,
    (i + List.length rest = List.length content)%nat ->
    forallb (wellBuilt ToLower parentAnchor) children = true ->
    exists cs,
      loop content parentAnchor false rest i children = Ok cs
      /\ forallb (wellBuilt ToLower parentAnchor) cs = true.
Proof.
  induction rest as [rest IH] using list_length_ind.
  intros Hrest Hplain i children Hi Hchildren.
  destruct rest as [|k [|v rest]]; try discriminate.
  - exists children. split; [reflexivity | assumption].
  - cbn [plainPairs] in Hplain.
    apply andb_prop in Hplain as [Hplain Hpairs].
    apply andb_prop in Hplain as [Hplain Hv].
    apply andb_prop in Hplain as [Hk Hcolumn].
    apply Z.leb_le in Hcolumn.
    inversion Hrest as [|? ? _ Hrest']; subst.
    inversion Hrest' as [|? ? Hbuilds Hrest'']; subst.
    rewrite loop_step, Hk.
    assert (Hlen : (List.length content <? i + 1)%nat = false).
    { apply Nat.ltb_ge. cbn [List.length] in Hi. lia. }
    rewrite Hlen.
    destruct (entryNode_plain parentAnchor k v Hbuilds Hk Hcolumn Hv)
      as (y & -> & Hy).
    cbn [bind appendNode]. apply IH.
    + cbn. lia.
    + assumption.
    + assumption.
    + cbn [List.length] in Hi. lia.
    + apply forallb_snoc; assumption.
Qed.

Lemma builder_plain n : buildsWell n.
Proof.
  induction n as [n IH] using Node_content_ind.
  intros Hkind Hplain anchor.
  rewrite plainValue_eq, Hkind in Hplain.
  rewrite ParseChildren_eq. apply loop_plain; auto.
Qed.

(** X5: on a plain mapping the builder returns: the length test and the
    index never fail, no node is passed over, and in the tree every node
    is built without the flag, has the column of its key as indent and
    has as [ParentAnchor] the anchor of the node above it, so that the
    anchor of a node is the dash-joined path of the lower-cased keys. *)
Theorem builder_returns_on_plain_mapping n anchor :
  yaml.KindOf n = yaml.MappingNode -> plainValue n = true ->
  exists cs,
    ParseChildren n anchor false = Ok cs
    /\ forallb (wellBuilt ToLower anchor) cs = true
    /\ Forall2 (documents anchor false) (entries (yaml.Content n)) cs.
Proof.
  intros Hkind Hplain.
  destruct (builder_plain n Hkind Hplain anchor) as (cs & Hcs & Hwell).
  exists cs. repeat split; try assumption.
  rewrite ParseChildren_eq in Hcs.
  apply (loop_entries ToLower Marshal _ _ _ _) with (done := []) in Hcs;
    [exact Hcs | | constructor].
  rewrite plainValue_eq, Hkind in Hplain. clear -Hplain.
  induction (yaml.Content n) as [l IHl] using list_length_ind.
  destruct l as [|k [|v l]]; try discriminate; [reflexivity|].
  cbn [plainPairs keyed] in *.
  apply andb_prop in Hplain as [Hplain Hpairs].
  apply andb_prop in Hplain as [Hplain _].
  apply andb_prop in Hplain as [-> _]. apply IHl; [cbn; lia | assumption].
Qed.

End PlainBuilder.

Lemma forEach_total {A B : Type} (f : A -> outcome B) (l : list A) :
  Forall (fun a => exists b, f a = Ok b) l ->
  exists bs, forEach f l = Ok bs.
Proof.
  induction 1 as [|a l [b Hb] _ [bs Hbs]]; cbn [forEach].
  - eexists. reflexivity.
  - rewrite Hb, Hbs. eexists. reflexivity.
Qed.

(** In a well-built tree no node has a negative count of leading spaces. *)
Lemma wellBuilt_leadingCount ToLower y : forall anchor,
  wellBuilt ToLower anchor y = true ->
  (0 <= leadingCount y)%Z
  /\ Forall (fun x => (0 <= leadingCount x)%Z) (descendants y).
Proof.
  induction y as [y IH] using YAMLNode_children_ind. intros anchor H.
  rewrite wellBuilt_eq in H.
  apply andb_prop in H as [H Hchildren].
  apply andb_prop in H as [H Hindent].
  apply andb_prop in H as [_ Hflag].
  apply negb_true_iff in Hflag. apply Z.leb_le in Hindent.
  split; [unfold leadingCount; rewrite Hflag; lia|].
  rewrite descendants_eq. unfold preorder.
  induction (Children y) as [|c cs IHcs]; [constructor|].
  cbn [forallb] in Hchildren. apply andb_prop in Hchildren as [Hc Hcs].
  inversion IH as [|? ? IHc IHrest]; subst.
  destruct (IHc _ Hc) as [Hc0 Hcdesc].
  cbn [flat_map]. apply Forall_app. split.
  - constructor; assumption.
  - apply IHcs; assumption.
Qed.

Lemma wellBuilt_preorder ToLower anchor cs :
  forallb (wellBuilt ToLower anchor) cs = true ->
  Forall (fun x => (0 <= leadingCount x)%Z) (preorder cs).
Proof.
  unfold preorder. induction cs as [|c cs IH]; intros H; [constructor|].
  cbn [forallb] in H. apply andb_prop in H as [Hc Hcs].
  destruct (wellBuilt_leadingCount ToLower c anchor Hc) as [Hc0 Hcdesc].
  cbn [flat_map]. apply Forall_app. split; [constructor; assumption | auto].
Qed.

Section PlainDocuments.

Variable ToLower : string -> string.
Variable Marshal : list yaml.Node -> outcome string.
Variable Unmarshal : string -> outcome yaml.Node.
Hypothesis Marshal_scalars : marshalsScalars Marshal.

(** X6: for a document whose value is a plain mapping, [Gen] returns a
    text: the builder returns a tree, the template succeeds on every node
    below the root, and the text is the fragments joined by blank lines. *)
Theorem gen_returns_on_plain_document (yamlStr : string) (n m : yaml.Node)
        (rest : list yaml.Node) :
  Unmarshal yamlStr = Ok n ->
  yaml.KindOf n = yaml.DocumentNode -> yaml.Content n = m :: rest ->
  yaml.KindOf m = yaml.MappingNode -> plainValue m = true ->
  exists root fragments,
    Parse ToLower Marshal Unmarshal yamlStr = Ok root
    /\ Forall2 (fun y fragment => Execute ToLower y = Ok fragment)
               (preorder (Children root)) fragments
    /\ Gen ToLower Marshal Unmarshal yamlStr
       = Ok (Join fragments (nl ++ nl)).
Proof.
  intros Hparsed Hdoc Hcontent Hkind Hplain.
  destruct (builder_plain ToLower Marshal Marshal_scalars m Hkind Hplain "")
    as (cs & Hcs & Hwell).
  assert (Hroot : Parse ToLower Marshal Unmarshal yamlStr
                  = Ok {| Indent := 0; ParentAnchor := ""; ParentWasMap := false;
                          Key := ""; Default := ""; Description := "";
                          KindTag := ""; Children := cs |}).
  { unfold Parse. rewrite Hparsed, ParseNode_eq, Hdoc, Hcontent.
    rewrite ParseNode_eq, Hkind. cbn [String.eqb]. rewrite Hcs. reflexivity. }
  destruct (forEach_total (Execute ToLower) (preorder cs)) as [fragments Hfr].
  { eapply Forall_impl; [|exact (wellBuilt_preorder ToLower "" cs Hwell)].
    intros y Hy. destruct (Execute_fragment ToLower y Hy) as (d & _ & ->).
    eexists. reflexivity. }
  eexists. exists fragments. split; [exact Hroot|]. cbn [Children].
  split; [apply forEach_Ok; assumption|].
  unfold Gen. rewrite Hroot, GenChildren_preorder, descendants_eq.
  cbn [Children]. rewrite Hfr. reflexivity.
Qed.

End PlainDocuments.

Lemma builder_returns_on_plain_mapping_witness :
  exists cs,
    Sample.ParseChildren
      (Sample.mapping 1
         [Sample.key "server" "" 1;
          Sample.mapping 3
            [Sample.key "replicas" ("# First." ++ nl ++ "# Second.") 3;
             Sample.scalar "!!int" "3" "" 13]]) "" false = Ok cs
    /\ forallb (wellBuilt Sample.ToLower "") cs = true
    /\ Forall2 (documents "" false)
               [(Sample.key "server" "" 1,
                 Sample.mapping 3
                   [Sample.key "replicas" ("# First." ++ nl ++ "# Second.") 3;
                    Sample.scalar "!!int" "3" "" 13])] cs.
Proof.
  apply (builder_returns_on_plain_mapping
           Sample.ToLower Sample.Marshal
           (fun content _ => ex_intro _ _ eq_refl));
    reflexivity.
Defined.

Lemma gen_returns_on_plain_document_witness :
  exists root fragments,
    Parse Sample.ToLower Sample.Marshal
          (Sample.Unmarshal Sample.plainMappingDoc) "" = Ok root
    /\ Forall2 (fun y fragment => Execute Sample.ToLower y = Ok fragment)
               (preorder (Children root)) fragments
    /\ Sample.Gen Sample.plainMappingDoc = Ok (Join fragments (nl ++ nl)).
Proof.
  apply (gen_returns_on_plain_document
           Sample.ToLower Sample.Marshal
           (Sample.Unmarshal Sample.plainMappingDoc)
           (fun content _ => ex_intro _ _ eq_refl)
           "" Sample.plainMappingDoc
           (Sample.mapping 1
              [Sample.key "server" "" 1;
               Sample.mapping 3
                 [Sample.key "replicas" ("# First." ++ nl ++ "# Second.") 3;
                  Sample.scalar "!!int" "3" "" 13]]) []);
    reflexivity.
Defined.

(** ** The comment marker *)

Lemma occurs_app c (a b : string) :
  occurs c (a ++ b) = occurs c a || occurs c b.
Proof.
  induction a as [|d a IH]; cbn [append occurs]; [reflexivity|].
  rewrite IH, orb_assoc. reflexivity.
Qed.

Lemma occurs_spaces n : occurs hash (spaces n) = false.
Proof. induction n as [|n IH]; [reflexivity | exact IH]. Qed.

Lemma occurs_TrimSuffix c (s suffix : string) :
  occurs c s = false -> occurs c (TrimSuffix s suffix) = false.
Proof.
  induction s as [|d s IH]; cbn [TrimSuffix occurs]; [reflexivity|].
  intros H. apply orb_false_elim in H as [Hd Hs].
  destruct (String.eqb (String d s) suffix); [reflexivity|].
  cbn [occurs]. rewrite Hd, IH by assumption. reflexivity.
Qed.

Lemma occurs_SplitLines c (s : string) :
  occurs c s = false -> Forall (fun l => occurs c l = false) (SplitLines s).
Proof.
  induction s as [|d s IH]; cbn [SplitLines occurs]; intros H.
  - constructor; [reflexivity | constructor].
  - apply orb_false_elim in H as [Hd Hs]. specialize (IH Hs).
    destruct (Ascii.eqb d newline).
    + constructor; [reflexivity | assumption].
    + destruct (SplitLines s) as [|l ls].
      * constructor; [cbn; rewrite Hd; reflexivity | constructor].
      * inversion IH; subst. constructor; [|assumption].
        cbn [occurs]. rewrite Hd. assumption.
Qed.

(** At a marker the comment pattern matches, one or two characters. *)
Lemma commentPrefix_at_hash (s : string) :
  exists after k,
    regexp.run commentPrefix (String hash s) = Some ([], after)
    /\ (String.length (String hash s) - String.length after = S k)%nat.
Proof.
  destruct s as [|b s].
  - exists "", 0%nat. split; reflexivity.
  - destruct (regexp.blank b) eqn:Hb.
    + exists s, 1%nat. split.
      * cbn. rewrite Hb. reflexivity.
      * cbn [String.length]. lia.
    + exists (String b s), 0%nat. split.
      * cbn. rewrite Hb. reflexivity.
      * cbn [String.length]. lia.
Qed.

(** No marker is left where the comment prefixes were removed. *)
Lemma deleteAll_no_hash (s : string) : forall skip,
  occurs hash (regexp.deleteAll commentPrefix skip s) = false.
Proof.
  induction s as [|c s IH]; intros skip; [destruct skip; reflexivity|].
  cbn [regexp.deleteAll]. destruct skip as [|k]; [|apply IH].
  destruct (Ascii.eqb hash c) eqn:Hc.
  - apply Ascii.eqb_eq in Hc as <-.
    destruct (commentPrefix_at_hash s) as (after & k & -> & ->). apply IH.
  - assert (Hkeep : occurs hash (String c (regexp.deleteAll commentPrefix 0 s))
                    = false).
    { cbn [occurs]. rewrite Hc, IH. reflexivity. }
    destruct (regexp.run commentPrefix (String c s)) as [[groups after]|];
      [|exact Hkeep].
    destruct (String.length (String c s) - String.length after)%nat;
      [exact Hkeep | apply IH].
Qed.

Lemma descStep_no_hash y acc i line acc' :
  occurs hash acc = false -> occurs hash line = false ->
  descStep y acc i line = Ok acc' -> occurs hash acc' = false.
Proof.
  intros Hacc Hline. unfold descStep, Repeat_space.
  destruct (isOverrideLine line); [intros [= <-]; assumption|].
  destruct (i =? 0)%nat.
  - intros [= <-]. rewrite occurs_app, Hline. reflexivity.
  - destruct (String.eqb line ""); cbn [negb].
    + intros [= <-]. rewrite occurs_app, Hacc. reflexivity.
    + destruct (descIndent y <? 0)%Z; [discriminate|]. cbn [bind].
      intros [= <-].
      rewrite !occurs_app, Hacc, occurs_spaces, Hline. reflexivity.
Qed.

Lemma descLoop_no_hash y lines : forall acc i out,
  occurs hash acc = false ->
  Forall (fun l => occurs hash l = false) lines ->
  descLoop y acc i lines = Ok out -> occurs hash out = false.
Proof.
  induction lines as [|line rest IH]; intros acc i out Hacc Hlines H;
    cbn [descLoop] in H.
  - injection H as <-. assumption.
  - inversion Hlines as [|? ? Hline Hrest]; subst.
    destruct (descStep y acc i line) as [acc'| |] eqn:Hstep;
      cbn [bind] in H; try discriminate.
    apply (IH acc' (S i) out); [|assumption|exact H].
    apply (descStep_no_hash y acc i line acc' Hacc Hline Hstep).
Qed.

(** X7: the rendered description never holds the character [#]: the
    comment pattern is not tied to the start of a line, so a marker inside
    a sentence is removed with the blanks before it and one blank after
    it, as the markers at the start of the lines are. *)
Theorem description_has_no_marker (y : YAMLNode) (d : string) :
  FormattedDescription y = Ok d -> occurs hash d = false.
Proof.
  unfold FormattedDescription, regexp.ReplaceAllString_empty. intros H.
  destruct (descLoop y "" 0 _) as [out| |] eqn:Hloop; cbn [bind] in H;
    try discriminate.
  injection H as <-. apply occurs_TrimSuffix.
  refine (descLoop_no_hash y _ "" 0%nat out eq_refl _ Hloop).
  apply occurs_SplitLines, deleteAll_no_hash.
Qed.

Lemma description_has_no_marker_witness :
  FormattedDescription issueComment = Ok "See issue12."
  /\ occurs hash "See issue12." = false.
Proof.
  split; [reflexivity|].
  apply (description_has_no_marker issueComment). reflexivity.
Defined.

(** ** Empty descriptions *)

Lemma descLoop_only_overrides y lines : forall acc i,
  Forall (fun l => isOverrideLine l = true) lines ->
  descLoop y acc i lines = Ok acc.
Proof.
  induction lines as [|line rest IH]; intros acc i H; [reflexivity|].
  inversion H; subst. cbn [descLoop].
  rewrite descStep_override by assumption. cbn [bind]. auto.
Qed.

Section EmptyDescription.

Variable ToLower : string -> string.

(** X8: a node without comment, and a node whose comment holds only
    override lines, have an empty description, and their fragment ends
    with the kind group. *)
Theorem no_description_without_text (y : YAMLNode) :
  Description y = ""
  \/ Forall (fun l => isOverrideLine l = true) (descLines y) ->
  FormattedDescription y = Ok ""
  /\ ((0 <= leadingCount y)%Z ->
      Execute ToLower y
      = Ok (spaces (Z.to_nat (leadingCount y))
              ++ "- `" ++ Key y ++ "` ((#v" ++ Anchor ToLower y ++ "))"
              ++ kindGroup y)).
Proof.
  intros H.
  assert (Hd : FormattedDescription y = Ok "").
  { unfold FormattedDescription. destruct H as [-> | H].
    - reflexivity.
    - fold (descLines y). rewrite descLoop_only_overrides by assumption.
      reflexivity. }
  split; [assumption|]. intros Hcount.
  destruct (Execute_fragment ToLower y Hcount) as (d & Hd' & ->).
  rewrite Hd in Hd'. injection Hd' as <-. cbn [String.eqb].
  rewrite !append_nil_r. reflexivity.
Qed.

End EmptyDescription.

Lemma no_description_without_text_witness :
  FormattedDescription onlyOverrides = Ok ""
  /\ Execute Sample.ToLower onlyOverrides
     = Ok ("- `key` ((#v-key)) (`integer: 5`)").
Proof.
  destruct (no_description_without_text Sample.ToLower onlyOverrides)
    as [Hd Hfragment].
  - right. vm_compute. repeat constructor.
  - split; [exact Hd|]. apply Hfragment. vm_compute. discriminate.
Defined.

(** ** Sequences of scalars *)

Lemma Kind_not_array_map (y : YAMLNode) :
  overrideOf "type: " (Description y) <> Some "array<map>" ->
  Kind y <> "array<map>".
Proof.
  intros H. rewrite Kind_override.
  destruct (overrideOf "type: " (Description y)) as [v|].
  - intros ->. apply H. reflexivity.
  - apply kindOfTag_not_array_map.
Qed.

Lemma SplitLines_one_line (l : string) :
  noNewline l = true -> SplitLines (l ++ nl) = [l; ""].
Proof.
  induction l as [|c l IH]; cbn [noNewline append SplitLines]; intros H.
  - reflexivity.
  - apply andb_prop in H as [Hc Hl]. rewrite dot_newline in Hc.
    apply negb_true_iff in Hc. rewrite Hc, (IH Hl). reflexivity.
Qed.

Lemma TrimPrefix_app (pre s : string) : TrimPrefix (pre ++ s) pre = s.
Proof.
  unfold TrimPrefix, HasPrefix.
  assert (H : String.prefix pre (pre ++ s) = true
              /\ dropBytes (String.length pre) (pre ++ s) = s).
  { induction pre as [|c pre [IH1 IH2]]; cbn.
    - destruct s; split; reflexivity.
    - destruct (ascii_dec c c); [|contradiction]. split; assumption. }
  destruct H as [-> ->]. reflexivity.
Qed.

Section ScalarSequences.

Variable ToLower : string -> string.
Variable Marshal : list yaml.Node -> outcome string.

Abbreviation entryOf :=
  (entryNode ToLower Marshal (ParseChildren ToLower Marshal)).

(** X9: a key whose value is an empty sequence gets a node without
    children whose default renders as [[]], unless its comment overrides
    the default or gives it the kind [array<map>]. *)
Theorem empty_sequence_default parentAnchor parentWasMap child next :
  yaml.KindOf next = yaml.SequenceNode -> yaml.Content next = [] ->
  overrideOf "default: " (yaml.HeadComment child) = None ->
  overrideOf "type: " (yaml.HeadComment child) <> Some "array<map>" ->
  exists y,
    entryOf parentAnchor parentWasMap child next = Ok (Some y)
    /\ Children y = [] /\ FormattedDefault y = "[]".
Proof.
  intros Hkind Hcontent Hdefault Htype.
  unfold entryNode. rewrite Hkind, Hcontent. cbn [List.length Nat.eqb].
  eexists. split; [reflexivity|]. split; [reflexivity|].
  rewrite FormattedDefault_override. cbn [Description Default].
  rewrite Hdefault. unfold defaultOfValue.
  match goal with |- context [String.eqb (Kind ?y) _] =>
    destruct (String.eqb (Kind y) "array<map>") eqn:E;
      [apply String.eqb_eq in E; destruct (Kind_not_array_map y Htype E)|]
  end.
  reflexivity.
Qed.

(** X10: a key whose value is a sequence of one or more scalars gets a
    node without children whose [Default] is the text [yaml.Marshal] gives
    for the field [arr], without the prefix [arr: ] when it has it.  What
    is rendered: the override when the comment has a [default:] override;
    otherwise, the kind not being overridden to [array<map>], the line
    without surrounding white space when the marshalled text is one line
    and its newline (the case the test on more than two lines lets
    through), and nothing when the text without its prefix has more than
    two lines.  When [yaml.Marshal] fails, the builder panics with its
    error. *)
Theorem scalar_sequence_default parentAnchor parentWasMap child next :
  yaml.KindOf next = yaml.SequenceNode ->
  yaml.Content next <> [] -> allScalars (yaml.Content next) = true ->
  (forall out,
      Marshal (yaml.Content next) = Ok out ->
      exists y,
        entryOf parentAnchor parentWasMap child next = Ok (Some y)
        /\ Children y = [] /\ Default y = TrimPrefix out "arr: "
        /\ (forall v,
               overrideOf "default: " (yaml.HeadComment child) = Some v ->
               FormattedDefault y = v)
        /\ (overrideOf "default: " (yaml.HeadComment child) = None ->
            overrideOf "type: " (yaml.HeadComment child) <> Some "array<map>" ->
            (forall flow,
                out = "arr: " ++ flow ++ nl -> noNewline flow = true ->
                FormattedDefault y = TrimSpace (flow ++ nl))
            /\ ((2 < List.length (SplitLines (TrimPrefix out "arr: ")))%nat ->
                FormattedDefault y = "")))
  /\ (forall e,
         Marshal (yaml.Content next) = Err e ->
         entryOf parentAnchor parentWasMap child next = Panic e).
Proof.
  intros Hkind Hcontent Hall.
  assert (Hlen : (List.length (yaml.Content next) =? 0)%nat = false).
  { destruct (yaml.Content next); [contradiction | reflexivity]. }
  split.
  - intros out Hmarshal.
    unfold entryNode, toYaml. rewrite Hkind, Hlen, Hall, Hmarshal.
    cbn [bind].
    eexists. split; [reflexivity|]. split; [reflexivity|].
    split; [reflexivity|].
    split.
    + intros v Hv. rewrite FormattedDefault_override. cbn [Description].
      rewrite Hv. reflexivity.
    + intros Hdefault Htype.
      match goal with |- context [FormattedDefault ?y] =>
        assert (Hvalue : FormattedDefault y
                         = defaultOfValue (Kind y) (TrimPrefix out "arr: "));
          [rewrite FormattedDefault_override; cbn [Description Default];
           rewrite Hdefault; reflexivity|];
        assert (Hk : String.eqb (Kind y) "array<map>" = false);
          [apply String.eqb_neq; apply Kind_not_array_map; exact Htype|]
      end.
      rewrite Hvalue. unfold defaultOfValue. rewrite Hk. split.
      * intros flow -> Hflow. rewrite TrimPrefix_app.
        rewrite SplitLines_one_line by assumption.
        destruct flow; reflexivity.
      * intros Hlines.
        destruct (TrimPrefix out "arr: ") as [|c t] eqn:Et;
          [cbn in Hlines; lia|].
        cbn [String.eqb negb]. apply Nat.ltb_lt in Hlines.
        rewrite Hlines. reflexivity.
  - intros e Hmarshal.
    unfold entryNode, toYaml. rewrite Hkind, Hlen, Hall, Hmarshal.
    reflexivity.
Qed.

End ScalarSequences.

Lemma empty_sequence_default_witness :
  exists y,
    entryNode Sample.ToLower Sample.Marshal Sample.ParseChildren "" false
              (Sample.key "args" "# Extra arguments." 1) (Sample.sequence 7 [])
    = Ok (Some y)
    /\ Children y = [] /\ FormattedDefault y = "[]".
Proof.
  apply (empty_sequence_default Sample.ToLower Sample.Marshal);
    try reflexivity. discriminate.
Defined.

Lemma scalar_sequence_default_witness :
  exists y,
    entryNode Sample.ToLower Sample.Marshal Sample.ParseChildren "" false
              (Sample.key "args" "" 1)
              (Sample.sequence 7 [Sample.scalar "!!str" "a" "" 8;
                                  Sample.scalar "!!str" "b" "" 11])
    = Ok (Some y)
    /\ Children y = [] /\ Default y = "[a, b]" ++ nl
    /\ FormattedDefault y = "[a, b]".
Proof.
  destruct (proj1 (scalar_sequence_default
                     Sample.ToLower Sample.Marshal "" false
                     (Sample.key "args" "" 1)
                     (Sample.sequence 7 [Sample.scalar "!!str" "a" "" 8;
                                         Sample.scalar "!!str" "b" "" 11])
                     eq_refl ltac:(discriminate) eq_refl)
                  ("arr: [a, b]" ++ nl) eq_refl)
    as (y & Hy & Hchildren & Hdefault & _ & Hshown).
  exists y. repeat split; try assumption.
  apply (proj1 (Hshown eq_refl ltac:(discriminate)) "[a, b]"); reflexivity.
Defined.

(** ** Anchors and kinds *)

Lemma append_cancel_l (a b c : string) : a ++ b = a ++ c -> b = c.
Proof.
  induction a as [|x a IH]; cbn [append]; [auto|].
  intros [= H]. auto.
Qed.

Section Anchors.

Variable ToLower : string -> string.

(** X11: an anchor is never empty, and two nodes under the same parent
    anchor have the same anchor exactly when their keys are equal once
    lower-cased: keys that differ only in case collide. *)
Theorem sibling_anchors_collide (y1 y2 : YAMLNode) :
  Anchor ToLower y1 <> ""
  /\ (ParentAnchor y1 = ParentAnchor y2 ->
      (Anchor ToLower y1 = Anchor ToLower y2
       <-> ToLower (Key y1) = ToLower (Key y2))).
Proof.
  unfold Anchor. split.
  - destruct (ParentAnchor y1); discriminate.
  - intros ->. split.
    + intros H. apply append_cancel_l in H. apply append_cancel_l in H.
      exact H.
    + intros ->. reflexivity.
Qed.

End Anchors.

Lemma sibling_anchors_collide_witness :
  Anchor Sample.ToLower (keyLeaf "Port" 1 "1" "" "!!int")
  = Anchor Sample.ToLower (keyLeaf "port" 1 "2" "" "!!int")
  <-> Sample.ToLower "Port" = Sample.ToLower "port".
Proof.
  apply (proj2 (sibling_anchors_collide
                  Sample.ToLower (keyLeaf "Port" 1 "1" "" "!!int")
                  (keyLeaf "port" 1 "2" "" "!!int"))).
  reflexivity.
Defined.

Lemma TrimLeft_bang_bangs n (tag : string) :
  TrimLeft_bang (bangs n ++ tag) = TrimLeft_bang tag.
Proof. induction n as [|n IH]; [reflexivity | exact IH]. Qed.

(** X12: any number of leading [!] of the tag is ignored when the kind is
    looked up, so [str], [!str] and [!!str] all give [string]; a tag that
    is none of [str], [int], [bool] and [map] behind its [!] (a float, a
    null, a sequence) gives the text [unknown kind] with the tag as it was
    written, [!] included. *)
Theorem kind_ignores_leading_bangs (n : nat) :
  kindOfTag (bangs n ++ "str") = "string"
  /\ kindOfTag (bangs n ++ "int") = "integer"
  /\ kindOfTag (bangs n ++ "bool") = "boolean"
  /\ kindOfTag (bangs n ++ "map") = "map"
  /\ (forall tag,
         TrimLeft_bang tag <> "str" -> TrimLeft_bang tag <> "int" ->
         TrimLeft_bang tag <> "bool" -> TrimLeft_bang tag <> "map" ->
         kindOfTag (bangs n ++ tag)
         = "unknown kind '" ++ (bangs n ++ tag) ++ "'").
Proof.
  unfold kindOfTag. rewrite !TrimLeft_bang_bangs.
  repeat split.
  intros tag Hstr Hint Hbool Hmap. rewrite TrimLeft_bang_bangs.
  apply String.eqb_neq in Hstr, Hint, Hbool, Hmap.
  rewrite Hstr, Hint, Hbool, Hmap. reflexivity.
Qed.

Lemma kind_ignores_leading_bangs_witness :
  kindOfTag "!!float" = "unknown kind '!!float'".
Proof.
  apply (proj2 (proj2 (proj2 (proj2 (kind_ignores_leading_bangs 2)))) "float");
    discriminate.
Defined.

(** ** Sequences of several mappings *)

Lemma forEach_ext {A B : Type} (f g : A -> outcome B) (l : list A) :
  Forall (fun a => f a = g a) l -> forEach f l = forEach g l.
Proof.
  induction 1 as [|a l Ha _ IH]; cbn [forEach]; [reflexivity|].
  rewrite Ha, IH. reflexivity.
Qed.

Section Elements.

Variable ToLower : string -> string.
Variable Marshal : list yaml.Node -> outcome string.

Abbreviation ParseChildren := (ParseChildren ToLower Marshal).
Abbreviation ParseNode := (ParseNode ToLower Marshal).
Abbreviation loop content parentAnchor parentWasMap :=
  (childrenLoop ToLower Marshal ParseChildren ParseNode content
                parentAnchor parentWasMap).

Lemma loop_elements content parentAnchor parentWasMap rest :
  List.length content <> 1%nat ->
  Forall (fun c => yaml.isScalar c = false) rest ->
  forall i children,
    loop content parentAnchor parentWasMap rest i children
    = (ys <- forEach (fun c => ParseNode c parentAnchor) rest ;;
       Ok (children ++ ys)%list).
Proof.
  intros Hcontent. apply Nat.eqb_neq in Hcontent.
  induction 1 as [|c rest Hc _ IH]; intros i children.
  - cbn. rewrite app_nil_r. reflexivity.
  - rewrite loop_step, Hc, Hcontent. cbn [forEach].
    destruct (ParseNode c parentAnchor) as [y|e|p]; cbn [bind];
      [|reflexivity..].
    rewrite IH.
    destruct (forEach _ rest) as [ys|e|p]; cbn [bind]; [|reflexivity..].
    rewrite <- app_assoc. reflexivity.
Qed.

(** X13: the elements of a sequence of two or more mappings each get a
    node of their own, in order: a node without flag and with the text of
    the mapping node (empty for a mapping) as its key, whose children are
    the nodes of the mapping's keys, built below the anchor of the
    sequence's key itself and not below an anchor of the element. *)
Theorem sequence_elements_are_nodes n parentAnchor parentWasMap :
  (2 <= List.length (yaml.Content n))%nat ->
  Forall (fun m => yaml.KindOf m = yaml.MappingNode) (yaml.Content n) ->
  parentAnchor <> "" ->
  ParseChildren n parentAnchor parentWasMap
  = forEach (fun m =>
               cs <- ParseChildren m parentAnchor false ;;
               Ok (elementNode parentAnchor m cs))
            (yaml.Content n).
Proof.
  intros Hlen Hmaps Hanchor.
  rewrite ParseChildren_eq, loop_elements.
  - rewrite (forEach_ext (fun c => ParseNode c parentAnchor)
                         (fun m => cs <- ParseChildren m parentAnchor false ;;
                                   Ok (elementNode parentAnchor m cs))).
    + destruct (forEach _ (yaml.Content n)); reflexivity.
    + eapply Forall_impl; [|exact Hmaps]. intros m Hm. cbn beta.
      rewrite ParseNode_eq, Hm.
      apply String.eqb_neq in Hanchor. rewrite Hanchor. reflexivity.
  - lia.
  - eapply Forall_impl; [|exact Hmaps]. intros m Hm. cbn beta.
    unfold yaml.isScalar. rewrite Hm. reflexivity.
Qed.

End Elements.

Lemma sequence_elements_are_nodes_witness :
  Sample.ParseChildren twoPorts "-ports" false
  = Ok [elementNode "-ports" httpPort
          [{| Indent := 5; ParentAnchor := "-ports"; ParentWasMap := false;
              Key := "name"; Default := "http"; Description := "";
              KindTag := "!!str"; Children := [] |}];
        elementNode "-ports" grpcPort
          [{| Indent := 5; ParentAnchor := "-ports"; ParentWasMap := false;
              Key := "name"; Default := "grpc"; Description := "";
              KindTag := "!!str"; Children := [] |}]].
Proof.
  apply (sequence_elements_are_nodes Sample.ToLower Sample.Marshal twoPorts
                                     "-ports" false).
  - cbn. lia.
  - repeat constructor.
  - discriminate.
Defined.
